(** * OAuth credential lifecycle and the authenticated-request pipeline

    A shallow embedding of the credential/session code of the frontend:

    - [frontend/src/api/bitbucket-axios-instance.ts]: the Bitbucket HTTP
      client, its header manager, [canRefresh], [isBitbucketErrorResponse]
      and the two response interceptor stages;
    - the auth context ([#/context/auth-context]): the session controller
      with [setGitHubToken], [setBitbucketToken], the two [clear...Token]
      functions, [setUserId], [logout] and [refreshToken].

    JavaScript values are an inductive type, [localStorage] is a finite map
    from keys to strings, module-level objects (the axios instances) and
    React state cells are fields of one explicit [World] record that every
    operation transforms, and a promise is represented by the way it settles. *)

From stdpp Require Import base strings gmap list.
From Stdlib Require Import ZArith Lia.

Set Warnings "-register-all".
Set Default Proof Using "Type".
Open Scope string_scope.
Open Scope list_scope.
Open Scope nat_scope.

(* ===================================================================== *)
(** ** JavaScript values and the operators the code applies to them *)
(* ===================================================================== *)

Module Js.

(** A parsed response body. Numbers are kept as integers: the code only
    ever tests them for truthiness and for equality with [401]. *)
Inductive JsValue :=
| JUndefined
| JNull
| JBool (b : bool)
| JNum (n : Z)
| JStr (s : string)
| JArr (items : list JsValue)
| JObj (fields : gmap string JsValue).

(** How an evaluation completes: normally with a value, or by throwing. *)
Inductive Completion (E A : Type) :=
| Normal (a : A)
| Throw (e : E).
Arguments Normal {E A} a.
Arguments Throw {E A} e.

(** [!!v] *)
Definition truthy (v : JsValue) : bool :=
  match v with
  | JUndefined | JNull => false
  | JBool b => b
  | JNum n => negb (n =? 0)%Z
  | JStr s => negb (String.eqb s "")
  | JArr _ | JObj _ => true
  end.

(** [!!s] for a [string] and for a [string | null]. *)
Definition truthy_string (s : string) : bool := negb (String.eqb s "").

Definition truthy_token (t : option string) : bool :=
  match t with
  | Some s => truthy_string s
  | None => false
  end.

(** Whether [v] is an object in the sense of the [in] operator. *)
Definition is_object (v : JsValue) : bool :=
  match v with
  | JArr _ | JObj _ => true
  | _ => false
  end.

(** [key in v] for a key that is neither an array index nor ["length"]:
    the operator throws a [TypeError] when its right operand is not an
    object; an array owns only its indices and [length]. *)
Definition has_property (key : string) (v : JsValue) : Completion string bool :=
  match v with
  | JObj fields => Normal (bool_decide (is_Some (fields !! key)))
  | JArr _ => Normal false
  | _ => Throw "Cannot use 'in' operator"
  end.

(** [v.key] on an object or array (same restriction on [key]). *)
Definition get_property (key : string) (v : JsValue) : JsValue :=
  match v with
  | JObj fields => default JUndefined (fields !! key)
  | _ => JUndefined
  end.

(** [v !== undefined] *)
Definition is_defined (v : JsValue) : bool :=
  match v with
  | JUndefined => false
  | _ => true
  end.

End Js.
Import Js.

(* ===================================================================== *)
(** ** Durable storage: [localStorage] *)
(* ===================================================================== *)

Module Storage.

Definition getItem (key : string) (ls : gmap string string) : option string :=
  ls !! key.

Definition setItem (key value : string) (ls : gmap string string)
  : gmap string string := <[key := value]> ls.

Definition removeItem (key : string) (ls : gmap string string)
  : gmap string string := delete key ls.

End Storage.

(* ===================================================================== *)
(** ** Provider header manager (bitbucket-axios-instance.ts, lines 9-24) *)
(* ===================================================================== *)

Module HeaderManager.

(** The part of an axios instance's [defaults] the code touches. *)
Record Client := mkClient {
  baseURL : string;
  headers_Accept : string;
  headers_common_Authorization : option string
}.

(** [axios.create({ baseURL: ..., headers: { Accept: ... } })] *)
Definition bitbucket_defaults : Client :=
  {| baseURL := "https://api.bitbucket.org/2.0";
     headers_Accept := "application/json";
     headers_common_Authorization := None |}.

Definition with_Authorization (h : option string) (c : Client) : Client :=
  {| baseURL := baseURL c;
     headers_Accept := headers_Accept c;
     headers_common_Authorization := h |}.

(** [defaults.headers.common.Authorization = `Bearer ${token}`] *)
Definition setAuthTokenHeader (token : string) (c : Client) : Client :=
  with_Authorization (Some ("Bearer " +:+ token)) c.

(** [if (defaults.headers.common.Authorization) delete ...]: the guard is
    a truthiness test, so a header holding the empty string stays. *)
Definition removeAuthTokenHeader (c : Client) : Client :=
  if truthy_token (headers_common_Authorization c)
  then with_Authorization None c
  else c.

(** The header is absent or a non-empty string. *)
Definition header_wf (c : Client) : Prop :=
  headers_common_Authorization c ≠ Some "".

End HeaderManager.

(* ===================================================================== *)
(** ** Requests, responses, errors and settled promises *)
(* ===================================================================== *)

Module Http.

(** A request config. [_retry] is the custom marker the failure stage
    attaches; an absent marker reads as [false]. *)
Record Request := mkRequest {
  url : string;
  method : string;
  headers_Authorization : option string;
  _retry : bool
}.

Record Response := mkResponse {
  response_status : Z;
  response_data : JsValue;
  response_config : Request
}.

(** An [AxiosError]: [new AxiosError(message, code, config, request, response)]. *)
Record AxiosError := mkAxiosError {
  error_message : string;
  error_code : string;
  error_config : option Request;
  error_response : option Response
}.

(** What a promise can be rejected with. *)
Inductive Thrown :=
| AxiosErr (e : AxiosError)
| PlainError (message : string)
| TypeError (message : string).

(** How a promise settles. *)
Inductive Settled (A : Type) :=
| Fulfilled (a : A)
| Rejected (e : Thrown).
Arguments Fulfilled {A} a.
Arguments Rejected {A} e.

(** [originalRequest._retry = true] *)
Definition set_retry (r : Request) : Request :=
  {| url := url r; method := method r;
     headers_Authorization := headers_Authorization r; _retry := true |}.

(** The same assignment seen through an error: [error.config] and
    [error.response.config] are one object, in every error axios builds and
    in the one the success stage builds from [response.config]. *)
Definition mark_retry (e : AxiosError) : AxiosError :=
  {| error_message := error_message e;
     error_code := error_code e;
     error_config := set_retry <$> error_config e;
     error_response :=
       (λ r, {| response_status := response_status r;
                response_data := response_data r;
                response_config := set_retry (response_config r) |})
         <$> error_response e |}.

End Http.
Import Http.

(* ===================================================================== *)
(** ** Session controller: the auth context *)
(* ===================================================================== *)

Module Auth.
Import HeaderManager.

(** The three React state cells of [AuthProvider]. A function of the
    provider is a closure over the values of one render; what such a closure
    reads is passed to the model as a [Render] named [view]. *)
Record Render := mkRender {
  gitHubTokenState : option string;
  bitbucketTokenState : option string;
  userIdState : string
}.

(** Calls to the backend API object [OpenHands]. *)
Inductive ApiCall :=
| GetConfig
| RefreshToken (appMode userId : string).

(** Everything the session controller reads or writes:
    - [react]: the state cells as last set by the [set...State] functions;
    - [localStorage];
    - [bitbucket]: the defaults of the Bitbucket axios instance;
    - [github_Authorization]: the default [Authorization] header of the
      GitHub axios instance;
    - [openHands_gitHubToken]: the GitHub-token header of the [openHands]
      instance;
    - [posthog_identity]: the identified analytics user, if any;
    - [api_calls]: the backend calls issued so far, oldest first. *)
Record World := mkWorld {
  react : Render;
  localStorage : gmap string string;
  bitbucket : Client;
  github_Authorization : option string;
  openHands_gitHubToken : option string;
  posthog_identity : option string;
  api_calls : list ApiCall
}.

Definition with_react (r : Render) (w : World) : World :=
  mkWorld r (localStorage w) (bitbucket w) (github_Authorization w)
          (openHands_gitHubToken w) (posthog_identity w) (api_calls w).

Definition with_localStorage (ls : gmap string string) (w : World) : World :=
  mkWorld (react w) ls (bitbucket w) (github_Authorization w)
          (openHands_gitHubToken w) (posthog_identity w) (api_calls w).

Definition with_bitbucket (c : Client) (w : World) : World :=
  mkWorld (react w) (localStorage w) c (github_Authorization w)
          (openHands_gitHubToken w) (posthog_identity w) (api_calls w).

Definition with_github_Authorization (h : option string) (w : World) : World :=
  mkWorld (react w) (localStorage w) (bitbucket w) h
          (openHands_gitHubToken w) (posthog_identity w) (api_calls w).

Definition with_openHands_gitHubToken (h : option string) (w : World) : World :=
  mkWorld (react w) (localStorage w) (bitbucket w) (github_Authorization w)
          h (posthog_identity w) (api_calls w).

Definition with_posthog_identity (i : option string) (w : World) : World :=
  mkWorld (react w) (localStorage w) (bitbucket w) (github_Authorization w)
          (openHands_gitHubToken w) i (api_calls w).

Definition record_call (c : ApiCall) (w : World) : World :=
  mkWorld (react w) (localStorage w) (bitbucket w) (github_Authorization w)
          (openHands_gitHubToken w) (posthog_identity w) (api_calls w ++ [c]).

(** *** State setters *)

Definition setGitHubTokenState (t : option string) (w : World) : World :=
  with_react (mkRender t (bitbucketTokenState (react w)) (userIdState (react w))) w.

Definition setBitbucketTokenState (t : option string) (w : World) : World :=
  with_react (mkRender (gitHubTokenState (react w)) t (userIdState (react w))) w.

Definition setUserIdState (u : string) (w : World) : World :=
  with_react (mkRender (gitHubTokenState (react w)) (bitbucketTokenState (react w)) u) w.

(** *** Imported header managers *)

(** [setAuthTokenHeader] / [removeAuthTokenHeader] of
    bitbucket-axios-instance.ts, applied to the module's instance. *)
Definition setBitbucketAuthTokenHeader (token : string) (w : World) : World :=
  with_bitbucket (setAuthTokenHeader token (bitbucket w)) w.

Definition removeBitbucketAuthTokenHeader (w : World) : World :=
  with_bitbucket (removeAuthTokenHeader (bitbucket w)) w.

(** Modelled from the spec: [#/api/github-axios-instance] is not among the
    sources. Its header manager follows the Provider Header Manager
    contract: the setter installs a bearer-scheme [Authorization] default
    header, the remover deletes the header if present and does nothing
    otherwise. *)
Definition setGitHubAuthTokenHeader (token : string) (w : World) : World :=
  with_github_Authorization (Some ("Bearer " +:+ token)) w.

Definition removeGitHubAuthTokenHeader (w : World) : World :=
  with_github_Authorization None w.

(** Modelled from the spec: [#/api/open-hands-axios] is not among the
    sources either. Its two functions for the GitHub token follow the same
    set/remove contract; the header's name and scheme are not visible, so the
    cell holds the token as given. *)
Definition setOpenHandsGitHubTokenHeader (token : string) (w : World) : World :=
  with_openHands_gitHubToken (Some token) w.

Definition removeOpenHandsGitHubTokenHeader (w : World) : World :=
  with_openHands_gitHubToken None w.

(** *** The controller's functions (auth context, lines 126-192) *)

Definition clearGitHubToken (w : World) : World :=
  let w := setGitHubTokenState None w in
  let w := with_localStorage (Storage.removeItem "ghToken" (localStorage w)) w in
  let w := removeOpenHandsGitHubTokenHeader w in
  removeGitHubAuthTokenHeader w.

Definition clearBitbucketToken (w : World) : World :=
  let w := setBitbucketTokenState None w in
  let w := with_localStorage (Storage.removeItem "bitbucketToken" (localStorage w)) w in
  removeBitbucketAuthTokenHeader w.

Definition setGitHubToken (token : option string) (w : World) : World :=
  let w := setGitHubTokenState token w in
  match token with
  | Some t =>
      if truthy_string t then
        let w := with_localStorage (Storage.setItem "ghToken" t (localStorage w)) w in
        let w := setOpenHandsGitHubTokenHeader t w in
        setGitHubAuthTokenHeader t w
      else clearGitHubToken w
  | None => clearGitHubToken w
  end.

Definition setBitbucketToken (token : option string) (w : World) : World :=
  let w := setBitbucketTokenState token w in
  match token with
  | Some t =>
      if truthy_string t then
        let w := with_localStorage (Storage.setItem "bitbucketToken" t (localStorage w)) w in
        setBitbucketAuthTokenHeader t w
      else clearBitbucketToken w
  | None => clearBitbucketToken w
  end.

(** [setUserIdState(userIdState)]: the state cell is set to the value the
    closure already sees, not to the argument. *)
Definition setUserId (view : Render) (userId : string) (w : World) : World :=
  let w := setUserIdState (userIdState view) w in
  with_localStorage (Storage.setItem "userId" userId (localStorage w)) w.

(** [posthog.reset()] *)
Definition posthog_reset (w : World) : World := with_posthog_identity None w.

Definition logout (w : World) : World :=
  let w := clearGitHubToken w in
  let w := clearBitbucketToken w in
  let w := setUserIdState "" w in
  let w := with_localStorage (Storage.removeItem "userId" (localStorage w)) w in
  posthog_reset w.

(** The part of [OpenHands.getConfig()]'s result the controller reads. *)
Record GetConfigResponse := mkConfig { APP_MODE : string }.

(** [refreshToken]. The two awaited backend calls are outside the sources;
    how each settles is an input: [getConfig] for [OpenHands.getConfig()],
    [exchange] for [OpenHands.refreshToken(appMode, userId)]. An awaited
    promise that rejects makes the [async] function reject with the same
    value. *)
Definition refreshToken (view : Render)
    (getConfig : Settled GetConfigResponse)
    (exchange : string → string → Settled (option string))
    (w : World) : Settled bool * World :=
  let w := record_call GetConfig w in
  match getConfig with
  | Rejected e => (Rejected e, w)
  | Fulfilled config =>
      if negb (String.eqb (APP_MODE config) "saas")
         || negb (truthy_token (gitHubTokenState view))
      then (Fulfilled false, w)
      else
        let w := record_call (RefreshToken (APP_MODE config) (userIdState view)) w in
        match exchange (APP_MODE config) (userIdState view) with
        | Rejected e => (Rejected e, w)
        | Fulfilled newToken =>
            if truthy_token newToken
            then (Fulfilled true, setGitHubToken newToken w)
            else (Fulfilled false, clearGitHubToken w)
        end
  end.

(** *** Cold start *)

(** The state after the first render: the state cells are initialised from
    [localStorage], the axios instances are as created. *)
Definition boot (ls : gmap string string) (analytics : option string) : World :=
  {| react :=
       mkRender (Storage.getItem "ghToken" ls)
                (Storage.getItem "bitbucketToken" ls)
                (default "" (Storage.getItem "userId" ls));
     localStorage := ls;
     bitbucket := bitbucket_defaults;
     github_Authorization := None;
     openHands_gitHubToken := None;
     posthog_identity := analytics;
     api_calls := [] |}.

(** The synchronous part of the mount effect (lines 194-200). *)
Definition mount (view : Render) (w : World) : World :=
  let storedGitHubToken := Storage.getItem "ghToken" (localStorage w) in
  let userId := default "" (Storage.getItem "userId" (localStorage w)) in
  let w := setGitHubToken storedGitHubToken w in
  setUserId view userId w.

(** *** The provider-indexed interface of the controller *)

Inductive ProviderId := GitHub | Bitbucket.

Definition storage_key (p : ProviderId) : string :=
  match p with
  | GitHub => "ghToken"
  | Bitbucket => "bitbucketToken"
  end.

Definition setToken (p : ProviderId) (token : option string) (w : World) : World :=
  match p with
  | GitHub => setGitHubToken token w
  | Bitbucket => setBitbucketToken token w
  end.

Definition clearToken (p : ProviderId) (w : World) : World :=
  match p with
  | GitHub => clearGitHubToken w
  | Bitbucket => clearBitbucketToken w
  end.

(** The in-memory credential (the context's [gitHubToken] /
    [bitbucketToken]), the persisted one, and the provider client's default
    [Authorization] header. *)
Definition tokenState (p : ProviderId) (w : World) : option string :=
  match p with
  | GitHub => gitHubTokenState (react w)
  | Bitbucket => bitbucketTokenState (react w)
  end.

Definition storedToken (p : ProviderId) (w : World) : option string :=
  Storage.getItem (storage_key p) (localStorage w).

Definition authHeader (p : ProviderId) (w : World) : option string :=
  match p with
  | GitHub => github_Authorization w
  | Bitbucket => headers_common_Authorization (bitbucket w)
  end.

(** Header and credential agree: both absent, or the header is the bearer
    form of the credential held in memory and in storage. *)
Definition mirrors (p : ProviderId) (w : World) : Prop :=
  storedToken p w = tokenState p w ∧
  authHeader p w = (λ t, "Bearer " +:+ t) <$> tokenState p w.

(** The states the controller can be in: a cold start followed by any
    sequence of its operations. *)
Inductive reachable : World → Prop :=
| reach_boot ls analytics : reachable (boot ls analytics)
| reach_setGitHubToken t w : reachable w → reachable (setGitHubToken t w)
| reach_setBitbucketToken t w : reachable w → reachable (setBitbucketToken t w)
| reach_clearGitHubToken w : reachable w → reachable (clearGitHubToken w)
| reach_clearBitbucketToken w : reachable w → reachable (clearBitbucketToken w)
| reach_setUserId view u w : reachable w → reachable (setUserId view u w)
| reach_logout w : reachable w → reachable (logout w)
| reach_refreshToken view getConfig exchange w :
    reachable w → reachable (refreshToken view getConfig exchange w).2.

(** Whether [refreshToken] goes on to the exchange. *)
Definition proceeds (view : Render) (config : GetConfigResponse) : bool :=
  String.eqb (APP_MODE config) "saas" && truthy_token (gitHubTokenState view).

End Auth.

(* ===================================================================== *)
(** ** The response interceptors (bitbucket-axios-instance.ts, lines 26-102) *)
(* ===================================================================== *)

Module Interceptor.

(** [canRefresh]: [error instanceof AxiosError] and
    [!!(error.config && error.response && error.response.status)]; objects
    are truthy, a status is truthy unless it is [0]. *)
Definition canRefresh (error : Thrown) : bool :=
  match error with
  | AxiosErr e =>
      match error_config e, error_response e with
      | Some _, Some response => negb (response_status response =? 0)%Z
      | _, _ => false
      end
  | _ => false
  end.

(** [!!data && "message" in data && data.message !== undefined], with the
    short-circuit order of [&&]. *)
Definition isBitbucketErrorResponse (data : JsValue) : Completion string bool :=
  if negb (truthy data) then Normal false
  else
    match has_property "message" data with
    | Throw e => Throw e
    | Normal false => Normal false
    | Normal true => Normal (is_defined (get_property "message" data))
    end.

(** [new AxiosError("Failed", "", response.config, response.request, response)] *)
Definition synthesized (response : Response) : AxiosError :=
  {| error_message := "Failed";
     error_code := "";
     error_config := Some (response_config response);
     error_response := Some response |}.

(** The success stage (lines 56-69). A [TypeError] raised while evaluating
    the predicate leaves the handler like the [throw] does. *)
Definition successStage (response : Response) : Settled Response :=
  let parsedData := response_data response in
  match isBitbucketErrorResponse parsedData with
  | Normal true => Rejected (AxiosErr (synthesized response))
  | Normal false => Fulfilled response
  | Throw msg => Rejected (TypeError msg)
  end.

(** The provider's error shape in the spec's words: an object or array that
    owns a [message] property whose value is not [undefined]. *)
Definition error_shape (data : JsValue) : bool :=
  is_object data &&
  match data with
  | JObj fields =>
      match fields !! "message" with
      | Some v => is_defined v
      | None => false
      end
  | _ => false
  end.

(** A body outside the predicate's declared parameter type
    ([object | Array | null]) on which [!!data] holds: [true], a non-zero
    number, a non-empty string. *)
Definition truthy_primitive (data : JsValue) : bool :=
  truthy data && negb (is_object data).

(** What the pipeline does that can be observed from outside. *)
Inductive Event :=
| Sent (request : Request)
| RefreshCalled
| LogoutCalled.

(** What the network returns for a request. *)
Inductive Reply :=
| HttpReply (status : Z) (data : JsValue)
| NoReply.

Section Pipeline.

(** The session state the callbacks act on, and how the client's default
    [Authorization] header is read from it. *)
Context {W : Type}.
Variable defaults_Authorization : W → option string.

(** The arguments of [setupAxiosInterceptors]. A call of [refreshToken]
    settles with a boolean or rejects, and may change the session. *)
Variable appMode : string.
Variable refreshToken : W → Settled bool * W.
Variable logout : W → W.

(** The remote end: its reply may depend on everything that happened so
    far and on the request as sent. *)
Variable server : list Event → Request → Reply.

Record State := mkState {
  world : W;
  events : list Event
}.

(** Computations that thread the session and the event log. *)
Definition M (A : Type) : Type := State → A * State.

#[local] Instance M_ret : MRet M := λ A a s, (a, s).
#[local] Instance M_bind : MBind M :=
  λ A B f m s, let '(a, s') := m s in f a s'.

Definition call_refreshToken : M (Settled bool) :=
  λ s, let s := mkState (world s) (events s ++ [RefreshCalled]) in
       let '(r, w) := refreshToken (world s) in
       (r, mkState w (events s)).

Definition call_logout : M unit :=
  λ s, (tt, mkState (logout (world s)) (events s ++ [LogoutCalled])).

Definition generic_failure : Thrown := PlainError "Failed to refresh token".

(** The failure stage (lines 70-100). [resubmit] is the client itself,
    called as [bitbucket(originalRequest)]; it answers [None] only when the
    model's recursion budget is used up.

    - [return await ...] inside [try]: a rejection of the awaited promise is
      thrown inside the [try] block and lands in [catch], which calls
      [logout] and rejects with the caught value;
    - reading [error.response.status] after [canRefresh] cannot fail; the
      branches that say otherwise reject with the [TypeError] such a read
      would raise. *)
Definition failureStage (resubmit : Request → M (option (Settled Response)))
    (error : Thrown) : M (option (Settled Response)) :=
  if negb (canRefresh error) then mret (Some (Rejected generic_failure))
  else
    match error with
    | AxiosErr e =>
        match error_config e, error_response e with
        | Some originalRequest, Some response =>
            if (response_status response =? 401)%Z && negb (_retry originalRequest)
            then
              let originalRequest := set_retry originalRequest in
              let error := AxiosErr (mark_retry e) in
              if String.eqb appMode "saas" then
                refreshed ← call_refreshToken;
                match refreshed with
                | Fulfilled true =>
                    retried ← resubmit originalRequest;
                    match retried with
                    | Some (Rejected refreshError) =>
                        call_logout;; mret (Some (Rejected refreshError))
                    | _ => mret retried
                    end
                | Fulfilled false =>
                    call_logout;;
                    call_logout;;
                    mret (Some (Rejected generic_failure))
                | Rejected refreshError =>
                    call_logout;; mret (Some (Rejected refreshError))
                end
              else mret (Some (Rejected error))
            else mret (Some (Rejected error))
        | _, _ => mret (Some (Rejected (TypeError "Cannot read properties of undefined")))
        end
    | _ => mret (Some (Rejected (TypeError "Cannot read properties of undefined")))
    end.

(** A request config merged with the instance defaults: a header the
    config already carries wins over the default one, and the properties the
    defaults do not know, the marker among them, are carried over. *)
Definition mergeConfig (config : Request) : M Request :=
  λ s,
    ({| url := url config; method := method config;
        headers_Authorization :=
          match headers_Authorization config with
          | Some h => Some h
          | None => defaults_Authorization (world s)
          end;
        _retry := _retry config |}, s).

(** [validateStatus] of axios: a status settles the request successfully
    when it is in [200, 300). *)
Definition validateStatus (status : Z) : bool :=
  (200 <=? status)%Z && (status <? 300)%Z.

Definition transport : Request → M Reply :=
  λ request s, (server (events s) request, mkState (world s) (events s ++ [Sent request])).

(** The client called as a function, [bitbucket(config)]: merge the
    defaults, send, and run the reply through the response interceptors,
    installed as [promise.then(successStage, failureStage)]: a reply with a
    valid status enters the success stage and whatever that stage throws goes
    to the caller; any other outcome enters the failure stage, as the
    [AxiosError] axios builds for it (its message and code are never read).
    [fuel] bounds the nesting of resubmissions; two is always enough. *)
Fixpoint bitbucket (fuel : nat) (config : Request) : M (option (Settled Response)) :=
  match fuel with
  | O => mret None
  | S fuel =>
      request ← mergeConfig config;
      reply ← transport request;
      match reply with
      | HttpReply status data =>
          let response := mkResponse status data request in
          if validateStatus status
          then mret (Some (successStage response))
          else failureStage (bitbucket fuel)
                 (AxiosErr (mkAxiosError "Request failed" "ERR_BAD_RESPONSE"
                                         (Some request) (Some response)))
      | NoReply =>
          failureStage (bitbucket fuel)
            (AxiosErr (mkAxiosError "Network Error" "ERR_NETWORK" (Some request) None))
      end
  end.

(** Counting what a run did. *)
Definition is_Sent (e : Event) : bool :=
  match e with Sent _ => true | _ => false end.

Definition is_RefreshCalled (e : Event) : bool :=
  match e with RefreshCalled => true | _ => false end.

Definition sends (l : list Event) : nat := length (filter is_Sent l).
Definition refreshes (l : list Event) : nat := length (filter is_RefreshCalled l).

(** [resent] is [original] sent again: same target, marker set. *)
Definition resent_of (original resent : Request) : Prop :=
  url resent = url original ∧ method resent = method original ∧
  _retry original = false ∧ _retry resent = true.

(** What one pass through the failure stage for a request [original] can
    add to the event log, when a marked request is resubmitted by one plain
    send. *)
Inductive stage_trace (original : option Request) : list Event → Prop :=
| trace_nothing : stage_trace original []
| trace_refresh_false :
    stage_trace original [RefreshCalled; LogoutCalled; LogoutCalled]
| trace_refresh_rejects :
    stage_trace original [RefreshCalled; LogoutCalled]
| trace_retry_settles o request :
    original = Some o → resent_of o request →
    stage_trace original [RefreshCalled; Sent request]
| trace_retry_rejected o request :
    original = Some o → resent_of o request →
    stage_trace original [RefreshCalled; Sent request; LogoutCalled].

(** [error.config], when the error has one. *)
Definition config_of (error : Thrown) : option Request :=
  match error with
  | AxiosErr e => error_config e
  | _ => None
  end.

(** [resubmit] answers a marked request with one send and nothing else. *)
Definition sends_once (resubmit : Request → M (option (Settled Response))) : Prop :=
  ∀ config s, _retry config = true →
    ∃ r request,
      url request = url config ∧ method request = method config ∧
      _retry request = true ∧
      resubmit config s = (Some r, mkState (world s) (events s ++ [Sent request])).

End Pipeline.

End Interceptor.

(* ===================================================================== *)
(** ** The pipeline as the session controller installs it *)
(* ===================================================================== *)

Module Session.
Import HeaderManager Auth Interceptor.

(** [bitbucket.defaults.headers.common.Authorization] *)
Definition defaults_Authorization (w : World) : option string :=
  headers_common_Authorization (Auth.bitbucket w).

(** [setupBitbucketAxiosInterceptors(config.APP_MODE, refreshToken, logout)]
    (auth context, lines 201-205): the callbacks are the controller's own
    functions, closures over the render [view] that ran the mount effect.
    [getConfig] and [exchange] say how the backend calls made inside
    [refreshToken] settle. *)
Definition client (appMode : string) (view : Render)
    (getConfig : Settled GetConfigResponse)
    (exchange : string → string → Settled (option string))
    (server : list Event → Request → Reply)
    (fuel : nat) (config : Request)
  : State → option (Settled Response) * State :=
  bitbucket defaults_Authorization
            appMode
            (refreshToken view getConfig exchange)
            logout
            server fuel config.

(** The [Authorization] values of the requests sent, oldest first. *)
Definition sent_Authorization (l : list Event) : list (option string) :=
  omap (λ e, match e with
             | Sent request => Some (headers_Authorization request)
             | _ => None
             end) l.

End Session.

(* ===================================================================== *)
(** ** [refreshToken] between its suspension points *)
(* ===================================================================== *)

Module Refresh.
Import Auth.

(** An invocation of the [async] function [refreshToken] is suspended at
    one of its two [await]s or has settled. The event loop runs one
    invocation at a time, from one suspension point to the next. *)
Inductive Task :=
| AwaitingConfig
| AwaitingExchange
| Done (result : Settled bool).

(** Up to [await OpenHands.getConfig()]. *)
Definition start (w : World) : Task * World :=
  (AwaitingConfig, record_call GetConfig w).

(** From the config's arrival up to [await OpenHands.refreshToken(...)] or
    the early [return false]. *)
Definition on_config (view : Render) (reply : Settled GetConfigResponse)
    (w : World) : Task * World :=
  match reply with
  | Rejected e => (Done (Rejected e), w)
  | Fulfilled config =>
      if negb (String.eqb (APP_MODE config) "saas")
         || negb (truthy_token (gitHubTokenState view))
      then (Done (Fulfilled false), w)
      else (AwaitingExchange,
            record_call (RefreshToken (APP_MODE config) (userIdState view)) w)
  end.

(** From the exchange's settling to the end. *)
Definition on_exchange (reply : Settled (option string)) (w : World)
  : Task * World :=
  match reply with
  | Rejected e => (Done (Rejected e), w)
  | Fulfilled newToken =>
      if truthy_token newToken
      then (Done (Fulfilled true), setGitHubToken newToken w)
      else (Done (Fulfilled false), clearGitHubToken w)
  end.

(** Two invocations in flight over the one shared session, as when two
    requests are answered 401 before either refresh completes. No field
    records that a refresh is under way: the source keeps none. *)
Record System := mkSystem {
  first : option Task;
  second : option Task;
  session : World
}.

Inductive Who := First | Second.

(** What the event loop can run next: a new invocation, or the resumption
    of a suspended one with the settled value of the promise it awaits. *)
Inductive Turn :=
| Invoke (who : Who)
| ConfigArrives (who : Who) (reply : Settled GetConfigResponse)
| ExchangeSettles (who : Who) (reply : Settled (option string)).

Definition task_of (who : Who) (s : System) : option Task :=
  match who with First => first s | Second => second s end.

Definition put (who : Who) (r : Task * World) (s : System) : System :=
  match who with
  | First => mkSystem (Some r.1) (second s) r.2
  | Second => mkSystem (first s) (Some r.1) r.2
  end.

(** One turn of the event loop; a turn that does not match the state of
    the invocation it names changes nothing. *)
Definition turn (view : Render) (t : Turn) (s : System) : System :=
  match t with
  | Invoke who =>
      match task_of who s with
      | None => put who (start (session s)) s
      | Some _ => s
      end
  | ConfigArrives who reply =>
      match task_of who s with
      | Some AwaitingConfig => put who (on_config view reply (session s)) s
      | _ => s
      end
  | ExchangeSettles who reply =>
      match task_of who s with
      | Some AwaitingExchange => put who (on_exchange reply (session s)) s
      | _ => s
      end
  end.

Definition run (view : Render) (schedule : list Turn) (s : System) : System :=
  foldl (λ s t, turn view t s) s schedule.

Definition idle (w : World) : System := mkSystem None None w.

(** The number of refresh exchanges issued. *)
Definition is_exchange (c : ApiCall) : bool :=
  match c with RefreshToken _ _ => true | GetConfig => false end.

Definition exchanges (w : World) : nat :=
  length (filter is_exchange (api_calls w)).

(** The schedule in which two 401s arrive before either refresh completes:
    both invocations start, both get the config, then the exchanges settle,
    the one of [later] last. *)
Definition overlapped (config : GetConfigResponse) (tokenFirst tokenSecond : string)
    (later : Who) : list Turn :=
  [Invoke First; Invoke Second;
   ConfigArrives First (Fulfilled config);
   ConfigArrives Second (Fulfilled config)] ++
  match later with
  | Second => [ExchangeSettles First (Fulfilled (Some tokenFirst));
               ExchangeSettles Second (Fulfilled (Some tokenSecond))]
  | First => [ExchangeSettles Second (Fulfilled (Some tokenSecond));
              ExchangeSettles First (Fulfilled (Some tokenFirst))]
  end.

Definition token_of (who : Who) (tokenFirst tokenSecond : string) : string :=
  match who with First => tokenFirst | Second => tokenSecond end.

End Refresh.

(* ===================================================================== *)
(** ** Concrete sessions, requests and replies *)
(* ===================================================================== *)

Module Examples.
Import HeaderManager Auth Interceptor.

Definition plain_request : Request := mkRequest "/repositories" "get" None false.

Definition always_401 : list Event → Request → Reply :=
  λ _ _, HttpReply 401 JNull.

Definition unit_state : State (W:=unit) := mkState tt [].

Definition network_error : Thrown :=
  AxiosErr (mkAxiosError "Network Error" "ERR_NETWORK" (Some plain_request) None).

Definition soft_error_body : JsValue :=
  JObj {[ "message" := JStr "Bad credentials"; "status" := JNum 401 ]}.

Definition signed_in : World :=
  setGitHubToken (Some "ghp_old") (boot ∅ None).

Definition signed_in_view : Render := react signed_in.

Definition signed_in_state : State := mkState signed_in [].

End Examples.

(* ===================================================================== *)
(** ** Cold start: what the mount effect installs *)
(* ===================================================================== *)

Module Startup.
Import HeaderManager Auth Interceptor.

(** The values the closures of the first render see: the initial state of
    the three cells, read from [localStorage]. *)
Definition first_render (ls : gmap string string) : Render :=
  mkRender (Storage.getItem "ghToken" ls)
           (Storage.getItem "bitbucketToken" ls)
           (default "" (Storage.getItem "userId" ls)).

(** The session once the first render and the synchronous part of the mount
    effect have run. *)
Definition cold_start (ls : gmap string string) (analytics : option string) : World :=
  mount (first_render ls) (boot ls analytics).

(** The Bitbucket client with the interceptors the mount effect installs
    (its dependency list is empty, so it runs once): [refreshToken] and
    [logout] are the functions of the first render. *)
Definition installed_client (appMode : string) (ls : gmap string string)
    (getConfig : Settled GetConfigResponse)
    (exchange : string → string → Settled (option string))
    (server : list Event → Request → Reply)
    (fuel : nat) (config : Request)
  : State → option (Settled Response) * State :=
  Session.client appMode (first_render ls) getConfig exchange server fuel config.

(** A server that answers 401 to the first request and 200 with an empty
    list to any later one. *)
Definition unauthorized_once : list Event → Request → Reply :=
  λ sent _, if bool_decide (sends sent = 0) then HttpReply 401 JNull
            else HttpReply 200 (JArr []).

End Startup.

(* ===================================================================== *)
(** ** Predicates on sessions *)
(* ===================================================================== *)

Module Invariants.
Import HeaderManager Auth.

#[global] Instance ProviderId_eq_dec : EqDecision ProviderId.
Proof. solve_decision. Defined.

(** The session apart from the log of backend calls. *)
Definition same_session (w1 w : World) : Prop :=
  react w1 = react w ∧ localStorage w1 = localStorage w ∧
  bitbucket w1 = bitbucket w ∧
  github_Authorization w1 = github_Authorization w ∧
  openHands_gitHubToken w1 = openHands_gitHubToken w ∧
  posthog_identity w1 = posthog_identity w.

(** Whether the Bitbucket client's header is absent or the bearer form of
    the token held both in the state cell and in storage. *)
Definition bitbucket_header_backed (w : World) : Prop :=
  authHeader Bitbucket w = None ∨
  ∃ t, t ≠ "" ∧ authHeader Bitbucket w = Some ("Bearer " +:+ t) ∧
       tokenState Bitbucket w = Some t ∧ storedToken Bitbucket w = Some t.

End Invariants.

(* ===================================================================== *)
(** ** The repository selector (bitbucket-repo-selector.tsx, lines 21-51) *)
(* ===================================================================== *)

Module Selector.

(** The two fields of a [BitbucketRepository] the selector reads. *)
Record BitbucketRepository := mkRepository {
  uuid : string;
  full_name : string
}.

(** [publicRepositories.filter((repo) => !publicRepositories.find((r) =>
    r.uuid === repo.uuid))] followed by the user's repositories. [find]
    yields the first match, an object and hence truthy, or [undefined]. *)
Definition allRepositories (publicRepositories userRepositories : list BitbucketRepository)
  : list BitbucketRepository :=
  List.filter
    (λ repo,
       negb (match List.find (λ r, String.eqb (uuid r) (uuid repo)) publicRepositories with
             | Some _ => true
             | None => false
             end))
    publicRepositories
  ++ userRepositories.

(** What the handlers act on: the payloads dispatched as
    [setSelectedRepository], the events captured by posthog, the number of
    calls of the [onSelect] prop, and the [selectedKey] state cell. *)
Record Selection := mkSelection {
  dispatched : list (option string);
  captured : list string;
  onSelect_calls : nat;
  selectedKey : option string
}.

(** [r.uuid === id] for an [id] of type [string | null]. *)
Definition uuid_is (id : option string) (r : BitbucketRepository) : bool :=
  match id with
  | Some i => String.eqb (uuid r) i
  | None => false
  end.

Definition handleRepoSelection
    (publicRepositories userRepositories : list BitbucketRepository)
    (id : option string) (st : Selection) : Selection :=
  match List.find (uuid_is id) (allRepositories publicRepositories userRepositories) with
  | Some repo =>
      {| dispatched := dispatched st ++ [Some (full_name repo)];
         captured := captured st ++ ["repository_selected"];
         onSelect_calls := S (onSelect_calls st);
         selectedKey := id |}
  | None => st
  end.

Definition handleClearSelection (st : Selection) : Selection :=
  {| dispatched := dispatched st ++ [None];
     captured := captured st;
     onSelect_calls := onSelect_calls st;
     selectedKey := selectedKey st |}.

End Selector.

(* ===================================================================== *)
(** ** The token dialog *)
(* ===================================================================== *)

Module Connect.
Import Auth.

(** [handleSubmit] of [ConnectToBitbucketModal]: [field] is
    [formData.get("bbToken")?.toString()], [closes] counts the calls of the
    [onClose] prop. *)
Definition handleSubmit (field : option string) (st : World * nat) : World * nat :=
  let '(w, closes) := st in
  let w := if truthy_token field then setBitbucketToken field w else w in
  (w, S closes).

End Connect.

(* ===================================================================== *)
(** ** The OAuth authorization URL *)
(* ===================================================================== *)

Module AuthUrl.
Import Stdlib.Strings.Ascii.

(** Strings stand for their UTF-8 bytes. [encodeURIComponent] leaves the
    letters, the digits and [- _ . ! ~ * ' ( )] as they are and writes every
    other byte as [%] and two upper-case hexadecimal digits. *)
Definition is_between (lo hi : N) (c : Ascii.ascii) : bool :=
  (lo <=? Ascii.N_of_ascii c)%N && (Ascii.N_of_ascii c <=? hi)%N.

Definition unreserved (c : Ascii.ascii) : bool :=
  is_between 48 57 c || is_between 65 90 c || is_between 97 122 c
  || existsb (Ascii.eqb c)
       ["-"; "_"; "."; "!"; "~"; "*"; "'"; "("; ")"]%char.

Definition hex_digit (n : N) : Ascii.ascii :=
  nth (N.to_nat n)
      ["0"; "1"; "2"; "3"; "4"; "5"; "6"; "7"; "8"; "9";
       "A"; "B"; "C"; "D"; "E"; "F"]%char "0"%char.

Definition percent_encode (c : Ascii.ascii) : string :=
  String "%" (String (hex_digit (Ascii.N_of_ascii c / 16))
                     (String (hex_digit (Ascii.N_of_ascii c mod 16)) "")).

Fixpoint encodeURIComponent (s : string) : string :=
  match s with
  | EmptyString => ""
  | String c rest =>
      (if unreserved c then String c "" else percent_encode c)
      +:+ encodeURIComponent rest
  end.

(** The part of a [URL] object the code reads. *)
Record URL := mkURL { origin : string }.

(** [generateBitbucketAuthUrl] *)
Definition generateBitbucketAuthUrl (clientId : string) (requestUrl : URL) : string :=
  let redirectUri := origin requestUrl +:+ "/oauth/bitbucket/callback" in
  let scope := "repository" in
  "https://bitbucket.org/site/oauth2/authorize?client_id=" +:+ clientId
  +:+ "&response_type=code&redirect_uri=" +:+ encodeURIComponent redirectUri
  +:+ "&scope=" +:+ encodeURIComponent scope.

Record UseBitbucketAuthUrlConfig := mkAuthUrlConfig {
  bitbucketToken : option string;
  appMode : option string;
  bitbucketClientId : option string
}.

(** [useBitbucketAuthUrl]: the memoised value, for the page at [location]. *)
Definition useBitbucketAuthUrl (config : UseBitbucketAuthUrlConfig) (location : URL)
  : option string :=
  if bool_decide (appMode config = Some "saas") && negb (truthy_token (bitbucketToken config))
  then Some (generateBitbucketAuthUrl
               (match bitbucketClientId config with
                | Some c => if truthy_string c then c else ""
                | None => ""
                end)
               location)
  else None.

(** Characters that cannot end or split a query parameter. *)
Definition component_char (c : Ascii.ascii) : bool :=
  unreserved c || Ascii.eqb c "%".

(** The characters that delimit the parts of a URL and of its query. *)
Definition delimiter (c : Ascii.ascii) : bool :=
  existsb (Ascii.eqb c) ["&"; "="; "#"; "?"; "/"; ":"; "+"; " "]%char.

Fixpoint all_chars (p : Ascii.ascii → bool) (s : string) : bool :=
  match s with
  | EmptyString => true
  | String c rest => p c && all_chars p rest
  end.

(** The hook as the home page calls it: the token comes from the auth
    context, mode and client id from the fetched config ([null] while it is
    not there). *)
Definition home_bitbucketAuthUrl (appMode clientId : option string)
    (w : Auth.World) (location : URL) : option string :=
  useBitbucketAuthUrl
    (mkAuthUrlConfig (Auth.tokenState Auth.Bitbucket w) appMode clientId) location.

End AuthUrl.

(* ===================================================================== *)
(** * Properties *)
(* ===================================================================== *)

(** ** Truthiness and the header manager *)

Module HeaderFacts.
Import HeaderManager.

Lemma truthy_string_true s : truthy_string s = true ↔ s ≠ "".
Proof.
  unfold truthy_string. destruct (String.eqb_spec s ""); simpl; split; congruence.
Qed.

Lemma truthy_token_true t :
  truthy_token t = true ↔ ∃ s, t = Some s ∧ s ≠ "".
Proof.
  destruct t as [s|]; simpl.
  - rewrite truthy_string_true. split; [eauto | intros (? & [= ->] & ?); done].
  - split; [done | intros (? & ? & ?); done].
Qed.

Lemma setAuthTokenHeader_wf token c : header_wf (setAuthTokenHeader token c).
Proof. unfold header_wf; simpl. intros [= H]. Qed.

Lemma removeAuthTokenHeader_wf c : header_wf c → header_wf (removeAuthTokenHeader c).
Proof.
  unfold removeAuthTokenHeader, header_wf.
  destruct (truthy_token _); simpl; [done | auto].
Qed.

Lemma removeAuthTokenHeader_absent c :
  header_wf c → headers_common_Authorization (removeAuthTokenHeader c) = None.
Proof.
  unfold removeAuthTokenHeader, header_wf.
  destruct (headers_common_Authorization c) as [s|] eqn:E; simpl.
  - unfold truthy_string. destruct (String.eqb_spec s ""); simpl.
    + subst. done.
    + done.
  - by rewrite E.
Qed.

Lemma removeAuthTokenHeader_idemp c :
  removeAuthTokenHeader (removeAuthTokenHeader c) = removeAuthTokenHeader c.
Proof.
  unfold removeAuthTokenHeader.
  destruct (truthy_token (headers_common_Authorization c)) eqn:E.
  - reflexivity.
  - by rewrite E.
Qed.

Lemma removeAuthTokenHeader_set token c :
  removeAuthTokenHeader (setAuthTokenHeader token c) = with_Authorization None c.
Proof. reflexivity. Qed.

End HeaderFacts.

(** ** Credentials and headers *)

Module AuthFacts.
Import HeaderManager Auth HeaderFacts.

Lemma clearGitHubToken_bitbucket w : bitbucket (clearGitHubToken w) = bitbucket w.
Proof. reflexivity. Qed.

Lemma setGitHubToken_bitbucket t w : bitbucket (setGitHubToken t w) = bitbucket w.
Proof. destruct t as [t|]; simpl; [destruct (truthy_string t)|]; reflexivity. Qed.

Lemma refreshToken_bitbucket view getConfig exchange w :
  bitbucket (refreshToken view getConfig exchange w).2 = bitbucket w.
Proof.
  unfold refreshToken.
  destruct getConfig as [config|e]; [|reflexivity].
  destruct (_ || _); [reflexivity|].
  destruct (exchange _ _) as [newToken|e]; [|reflexivity].
  destruct (truthy_token newToken); simpl.
  - by rewrite setGitHubToken_bitbucket.
  - reflexivity.
Qed.

Lemma clearBitbucketToken_wf w :
  header_wf (bitbucket w) → header_wf (bitbucket (clearBitbucketToken w)).
Proof. intros H. simpl. by apply removeAuthTokenHeader_wf. Qed.

Lemma setBitbucketToken_wf t w :
  header_wf (bitbucket w) → header_wf (bitbucket (setBitbucketToken t w)).
Proof.
  intros H. destruct t as [t|]; simpl.
  - destruct (truthy_string t); simpl.
    + apply setAuthTokenHeader_wf.
    + by apply removeAuthTokenHeader_wf.
  - by apply removeAuthTokenHeader_wf.
Qed.

(** No operation ever leaves an empty string in the Bitbucket header. *)
Lemma reachable_header_wf w : reachable w → header_wf (bitbucket w).
Proof.
  induction 1 as [ls a|t w _ IH|t w _ IH|w _ IH|w _ IH|view u w _ IH|w _ IH
                  |view getConfig exchange w _ IH].
  - done.
  - by rewrite setGitHubToken_bitbucket.
  - by apply setBitbucketToken_wf.
  - done.
  - by apply clearBitbucketToken_wf.
  - done.
  - simpl. by apply removeAuthTokenHeader_wf.
  - by rewrite refreshToken_bitbucket.
Qed.

Lemma authHeader_wf p w : reachable w → authHeader p w ≠ Some "".
Proof.
  intros H. destruct p; simpl.
  - induction H as [ls a|t w _ IH|t w _ IH|w _ IH|w _ IH|view u w _ IH|w _ IH
                    |view getConfig exchange w _ IH]; simpl; try done.
    + destruct t as [t|]; simpl; [destruct (truthy_string t)|]; simpl; done.
    + destruct t as [t|]; simpl; [destruct (truthy_string t)|]; simpl; done.
    + unfold refreshToken.
      destruct getConfig as [config|e]; [|done].
      destruct (_ || _); [done|].
      destruct (exchange _ _) as [newToken|e]; [|done].
      destruct (truthy_token newToken) eqn:E; simpl; [|done].
      destruct newToken as [t|]; simpl in *; [rewrite E|]; simpl; done.
  - by apply reachable_header_wf.
Qed.

(** Setting a non-empty token: state cell, storage and header. *)
Lemma setToken_present p t w :
  t ≠ "" →
  let w' := setToken p (Some t) w in
  tokenState p w' = Some t ∧ storedToken p w' = Some t ∧
  authHeader p w' = Some ("Bearer " +:+ t).
Proof.
  intros Ht%truthy_string_true.
  destruct p; simpl; rewrite Ht; simpl;
    unfold storedToken, Storage.getItem, Storage.setItem; simpl;
    by rewrite lookup_insert_eq.
Qed.

Lemma clearToken_absent p w :
  authHeader p w ≠ Some "" →
  let w' := clearToken p w in
  tokenState p w' = None ∧ storedToken p w' = None ∧ authHeader p w' = None.
Proof.
  intros H.
  destruct p; simpl;
    unfold storedToken, Storage.getItem; simpl; unfold Storage.removeItem;
    rewrite lookup_delete_eq; repeat split.
  by apply removeAuthTokenHeader_absent.
Qed.

Lemma setToken_None p w : setToken p None w = clearToken p w.
Proof. destruct p; reflexivity. Qed.

(** An empty-string token takes the [else] branch of [if (token)]. *)
Lemma setToken_empty p w : setToken p (Some "") w = clearToken p w.
Proof. destruct p; reflexivity. Qed.

(** C1 (as amended). For every provider [p] and every non-empty token [t],
    in any state the controller can reach: [setToken p t] leaves [t] in the
    state cell and in storage and the bearer header ["Bearer " + t] on the
    provider's client; [setToken p absent] is [clearToken p]; [clearToken p]
    leaves no credential in the state cell or in storage and no
    [Authorization] header at all; so header and credential agree after each
    of these operations. *)
Theorem setToken_clearToken_mirror p t w :
  reachable w → t ≠ "" →
  (let w' := setToken p (Some t) w in
   tokenState p w' = Some t ∧ storedToken p w' = Some t ∧
   authHeader p w' = Some ("Bearer " +:+ t) ∧ mirrors p w') ∧
  setToken p None w = clearToken p w ∧
  (let w' := clearToken p w in
   tokenState p w' = None ∧ storedToken p w' = None ∧
   authHeader p w' = None ∧ mirrors p w').
Proof.
  intros Hw Ht.
  destruct (setToken_present p t w Ht) as (H1 & H2 & H3).
  destruct (clearToken_absent p w (authHeader_wf p w Hw)) as (H4 & H5 & H6).
  cbv zeta in *. unfold mirrors.
  rewrite H1, H2, H3, H4, H5, H6, setToken_None. simpl. done.
Qed.

Lemma setToken_clearToken_mirror_witness :
  let w := boot ∅ None in
  let w' := setToken Bitbucket (Some "abc123") w in
  tokenState Bitbucket w' = Some "abc123" ∧
  authHeader Bitbucket w' = Some "Bearer abc123" ∧
  authHeader Bitbucket (clearToken Bitbucket w') = None.
Proof.
  pose proof (setToken_clearToken_mirror Bitbucket "abc123" (boot ∅ None)
                (reach_boot ∅ None) ltac:(discriminate)) as (H1 & _ & _).
  pose proof (setToken_clearToken_mirror Bitbucket "abc123"
                (setToken Bitbucket (Some "abc123") (boot ∅ None))
                (reach_setBitbucketToken _ _ (reach_boot ∅ None))
                ltac:(discriminate)) as (_ & _ & H2).
  cbv zeta in *. destruct H1 as (H1 & _ & H3 & _). destruct H2 as (_ & _ & H2 & _).
  exact (conj H1 (conj H3 H2)).
Defined.

(** C1 as worded covers every token; the empty string is one the
    setter treats as absent: nothing is stored and no header is installed. *)
Lemma setToken_empty_string_not_stored :
  let w' := setToken Bitbucket (Some "") (boot ∅ None) in
  tokenState Bitbucket w' ≠ Some "" ∧
  storedToken Bitbucket w' ≠ Some "" ∧
  authHeader Bitbucket w' ≠ Some ("Bearer " +:+ "").
Proof.
  cbv zeta. rewrite setToken_empty.
  destruct (clearToken_absent Bitbucket (boot ∅ None)) as (H1 & H2 & H3); [done|].
  cbv zeta in *. rewrite H1, H2, H3. done.
Qed.

Lemma logout_localStorage w :
  localStorage (logout w) =
  delete "userId" (delete "bitbucketToken" (delete "ghToken" (localStorage w))).
Proof. reflexivity. Qed.

Lemma logout_bitbucket w :
  bitbucket (logout w) = removeAuthTokenHeader (bitbucket w).
Proof. reflexivity. Qed.

Lemma world_eq w1 w2 :
  react w1 = react w2 → localStorage w1 = localStorage w2 →
  bitbucket w1 = bitbucket w2 →
  github_Authorization w1 = github_Authorization w2 →
  openHands_gitHubToken w1 = openHands_gitHubToken w2 →
  posthog_identity w1 = posthog_identity w2 →
  api_calls w1 = api_calls w2 →
  w1 = w2.
Proof. destruct w1, w2; simpl; intros; subst; reflexivity. Qed.

Lemma logout_idemp w : logout (logout w) = logout w.
Proof.
  apply world_eq; try reflexivity.
  - rewrite !logout_localStorage. apply map_eq; intros k.
    rewrite !lookup_delete. repeat case_decide; done.
  - rewrite !logout_bitbucket. apply removeAuthTokenHeader_idemp.
Qed.

(** C8. In any state the controller can reach, [logout] leaves no token for
    either provider (state cell, storage, [Authorization] header), an empty
    user id with its storage entry removed, and no analytics identity; and a
    second [logout] changes nothing, so [logout] twice, or on a logged-out
    session, ends where a single [logout] ends. *)
Theorem logout_clears_everything_idempotent w :
  reachable w →
  (∀ p, tokenState p (logout w) = None ∧ storedToken p (logout w) = None ∧
        authHeader p (logout w) = None) ∧
  userIdState (react (logout w)) = "" ∧
  Storage.getItem "userId" (localStorage (logout w)) = None ∧
  posthog_identity (logout w) = None ∧
  logout (logout w) = logout w.
Proof.
  intros Hw. split; [|repeat split].
  - intros p. unfold storedToken, Storage.getItem. rewrite logout_localStorage.
    destruct p; simpl; (split; [reflexivity|]); split.
    + rewrite !lookup_delete. repeat case_decide; done.
    + reflexivity.
    + rewrite !lookup_delete. repeat case_decide; done.
    + apply removeAuthTokenHeader_absent. by apply reachable_header_wf.
  - unfold Storage.getItem. rewrite logout_localStorage. apply lookup_delete_eq.
  - apply logout_idemp.
Qed.

Lemma logout_clears_everything_idempotent_witness :
  let w := setToken Bitbucket (Some "abc123")
             (setToken GitHub (Some "ghp_1") (boot {["userId" := "u1"]} (Some "u1"))) in
  authHeader Bitbucket (logout w) = None ∧ logout (logout w) = logout w.
Proof.
  cbv zeta.
  pose proof (logout_clears_everything_idempotent _
                (reach_setBitbucketToken (Some "abc123") _
                   (reach_setGitHubToken (Some "ghp_1") _
                      (reach_boot {["userId" := "u1"]} (Some "u1")))))
    as (H & _ & _ & _ & Hi).
  exact (conj (proj2 (proj2 (H Bitbucket))) Hi).
Defined.

End AuthFacts.

(** ** The interceptor stages and the client *)

Module InterceptorFacts.
Import Interceptor Examples.

Ltac unfold_M :=
  unfold mbind, M_bind, mret, M_ret, call_refreshToken, call_logout,
    mergeConfig, transport in *.

Section Facts.

Context {W : Type}.
Variable defaults_Authorization : W → option string.
Variable appMode : string.
Variable refreshToken : W → Settled bool * W.
Variable logout : W → W.
Variable server : list Event → Request → Reply.

Local Abbreviation stage := (failureStage appMode refreshToken logout).
Local Abbreviation client :=
  (bitbucket defaults_Authorization appMode refreshToken logout server).
Local Abbreviation merged config s :=
  (mergeConfig defaults_Authorization config s).1.

Lemma merged_retry config (s : State (W:=W)) : _retry (merged config s) = _retry config.
Proof. reflexivity. Qed.

(** A failure the guard refuses: nothing is attempted. *)
Lemma stage_cannot_refresh resubmit error (s : State (W:=W)) :
  canRefresh error = false →
  stage resubmit error s = (Some (Rejected generic_failure), s).
Proof. intros H. unfold failureStage. rewrite H. reflexivity. Qed.

(** A failure that is not a first 401: rejected as it came. *)
Lemma stage_not_first_401 resubmit e originalRequest response (s : State (W:=W)) :
  error_config e = Some originalRequest →
  error_response e = Some response →
  response_status response ≠ 0%Z →
  (response_status response =? 401)%Z && negb (_retry originalRequest) = false →
  stage resubmit (AxiosErr e) s = (Some (Rejected (AxiosErr e)), s).
Proof.
  intros Hc Hr Hs H. unfold failureStage, canRefresh. rewrite Hc, Hr, H.
  destruct (Z.eqb_spec (response_status response) 0); [done|]. reflexivity.
Qed.

(** A first 401 outside saas mode: the marker is set, nothing else happens. *)
Lemma stage_401_not_saas resubmit e originalRequest response (s : State (W:=W)) :
  appMode ≠ "saas" →
  error_config e = Some originalRequest →
  error_response e = Some response →
  response_status response = 401%Z →
  _retry originalRequest = false →
  stage resubmit (AxiosErr e) s = (Some (Rejected (AxiosErr (mark_retry e))), s).
Proof.
  intros Hm Hc Hr Hs H. unfold failureStage, canRefresh. rewrite Hc, Hr, Hs, H. simpl.
  destruct (String.eqb_spec appMode "saas"); [done|]. reflexivity.
Qed.

(** A request that already carries the marker is sent once; whatever comes
    back, no refresh, no logout and no resubmission follow. *)
Lemma client_marked fuel config (s : State (W:=W)) :
  _retry config = true →
  ∃ r, client (S fuel) config s =
       (Some r, mkState (world s) (events s ++ [Sent (merged config s)])).
Proof.
  intros Hm. simpl. unfold_M. simpl.
  destruct (server _ _) as [status data|]; simpl.
  - destruct (validateStatus status); [eauto|].
    unfold failureStage, canRefresh; simpl.
    destruct (status =? 0)%Z; simpl; [eauto|].
    rewrite Hm, andb_false_r. eauto.
  - eauto.
Qed.

(** The three ways a first 401 continues in saas mode. *)
Lemma stage_refresh_false resubmit e originalRequest response w' (s : State (W:=W)) :
  appMode = "saas" →
  error_config e = Some originalRequest →
  error_response e = Some response →
  response_status response = 401%Z →
  _retry originalRequest = false →
  refreshToken (world s) = (Fulfilled false, w') →
  stage resubmit (AxiosErr e) s =
  (Some (Rejected generic_failure),
   mkState (logout (logout w'))
           (events s ++ [RefreshCalled; LogoutCalled; LogoutCalled])).
Proof.
  intros -> Hc Hr Hs H Hf. unfold failureStage, canRefresh.
  rewrite Hc, Hr, Hs, H. simpl. unfold_M. simpl. rewrite Hf. simpl.
  by rewrite <- !app_assoc.
Qed.

Lemma stage_refresh_rejects resubmit e originalRequest response refreshError w'
    (s : State (W:=W)) :
  appMode = "saas" →
  error_config e = Some originalRequest →
  error_response e = Some response →
  response_status response = 401%Z →
  _retry originalRequest = false →
  refreshToken (world s) = (Rejected refreshError, w') →
  stage resubmit (AxiosErr e) s =
  (Some (Rejected refreshError),
   mkState (logout w') (events s ++ [RefreshCalled; LogoutCalled])).
Proof.
  intros -> Hc Hr Hs H Hf. unfold failureStage, canRefresh.
  rewrite Hc, Hr, Hs, H. simpl. unfold_M. simpl. rewrite Hf. simpl.
  by rewrite <- !app_assoc.
Qed.

Lemma stage_refresh_true resubmit e originalRequest response w' (s : State (W:=W)) :
  appMode = "saas" →
  error_config e = Some originalRequest →
  error_response e = Some response →
  response_status response = 401%Z →
  _retry originalRequest = false →
  refreshToken (world s) = (Fulfilled true, w') →
  stage resubmit (AxiosErr e) s =
  let '(retried, s') := resubmit (set_retry originalRequest)
                          (mkState w' (events s ++ [RefreshCalled])) in
  match retried with
  | Some (Rejected refreshError) =>
      (Some (Rejected refreshError),
       mkState (logout (world s')) (events s' ++ [LogoutCalled]))
  | _ => (retried, s')
  end.
Proof.
  intros -> Hc Hr Hs H Hf. unfold failureStage, canRefresh.
  rewrite Hc, Hr, Hs, H. simpl. unfold_M. simpl. rewrite Hf. simpl.
  destruct (resubmit _ _) as [[[a|err]|] s']; reflexivity.
Qed.

Lemma stage_trace_counts original new :
  stage_trace original new →
  sends new ≤ 1 ∧ refreshes new ≤ 1 ∧ sends new ≤ refreshes new.
Proof. destruct 1; cbv; lia. Qed.

Lemma stage_trace_resent original new pre request post :
  stage_trace original new → new = pre ++ Sent request :: post →
  ∃ o, original = Some o ∧ resent_of o request.
Proof.
  destruct 1; intros Heq;
    repeat (destruct pre as [|? pre]; simplify_eq/=); eauto.
Qed.

Lemma stage_events resubmit error (s : State (W:=W)) :
  sends_once resubmit →
  ∃ r s' new,
    stage resubmit error s = (Some r, s') ∧
    events s' = events s ++ new ∧ stage_trace (config_of error) new.
Proof.
  intros Hre. unfold failureStage.
  destruct (canRefresh error) eqn:Hcan; simpl.
  2:{ eexists _, _, []. rewrite app_nil_r. repeat split. constructor. }
  destruct error as [e| |]; try done. simpl in Hcan.
  destruct (error_config e) as [originalRequest|] eqn:Hc; [|done].
  destruct (error_response e) as [response|] eqn:Hr; [|done].
  destruct (_ && _) eqn:Hfirst.
  2:{ eexists _, _, []. rewrite app_nil_r. repeat split. constructor. }
  apply andb_true_iff in Hfirst as [_ Hfresh%negb_true_iff].
  destruct (String.eqb appMode "saas").
  2:{ eexists _, _, []. rewrite app_nil_r. repeat split. constructor. }
  unfold_M. simpl.
  destruct (refreshToken (world s)) as [[[|]|refreshError] w']; simpl.
  - destruct (Hre (set_retry originalRequest)
                (mkState w' (events s ++ [RefreshCalled])) eq_refl)
      as (r & request & Hu & Hme & Hm & ->).
    assert (resent_of originalRequest request) by done.
    destruct r as [a|err]; simpl.
    + eexists _, _, _. repeat split; [by rewrite <- app_assoc|].
      by eapply trace_retry_settles.
    + eexists _, _, _. repeat split; [by rewrite <- !app_assoc|].
      by eapply trace_retry_rejected.
  - eexists _, _, _. repeat split; [by rewrite <- !app_assoc|]. constructor.
  - eexists _, _, _. repeat split; [by rewrite <- !app_assoc|]. constructor.
Qed.

Lemma client_sends_once fuel : sends_once (client (S fuel)).
Proof.
  intros config s Hm. destruct (client_marked fuel config s Hm) as [r Hr].
  exists r, (merged config s). repeat split; [by rewrite merged_retry|exact Hr].
Qed.

(** With a budget of two the client always settles, and its log grows by
    one send followed by at most one pass of refresh-and-retry. *)
Lemma client_events fuel config (s : State (W:=W)) :
  ∃ r s' new,
    client (S (S fuel)) config s = (Some r, s') ∧
    events s' = events s ++ Sent (merged config s) :: new ∧
    stage_trace (Some (merged config s)) new.
Proof.
  cbn [bitbucket]. unfold_M. simpl.
  set (request := mkRequest _ _ _ _).
  set (s1 := mkState (world s) (events s ++ [Sent request])).
  assert (Hs1 : ∀ error, config_of error = Some request → ∃ r s' new,
             stage (client (S fuel)) error s1 = (Some r, s') ∧
             events s' = events s ++ Sent request :: new ∧
             stage_trace (Some request) new).
  { intros error Hcfg.
    destruct (stage_events (client (S fuel)) error s1 (client_sends_once fuel))
      as (r & s' & new & Heq & Hev & Htr).
    exists r, s', new. repeat split; [done| |by rewrite <- Hcfg].
    rewrite Hev. simpl. by rewrite <- app_assoc. }
  destruct (server _ _) as [status data|].
  - destruct (validateStatus status).
    + eexists _, _, []. repeat split. constructor.
    + by apply Hs1.
  - by apply Hs1.
Qed.

(** More budget changes nothing. *)
Lemma client_fuel_irrelevant fuel config (s : State (W:=W)) :
  client (S (S fuel)) config s = client 2 config s.
Proof.
  cbn [bitbucket]. unfold_M. simpl.
  set (request := mkRequest _ _ _ _).
  set (s1 := mkState (world s) (events s ++ [Sent request])).
  assert (Hst : ∀ error, stage (client (S fuel)) error s1 = stage (client 1) error s1).
  { intros error. unfold failureStage.
    destruct (canRefresh error); simpl; [|done].
    destruct error as [e| |]; try done.
    destruct (error_config e) as [originalRequest|]; [|done].
    destruct (error_response e) as [response|]; [|done].
    destruct (_ && _); [|done].
    destruct (String.eqb appMode "saas"); [|done].
    unfold mbind, M_bind.
    destruct (call_refreshToken refreshToken s1) as [[[|]|] s2]; try done.
    cbn [bitbucket]. unfold_M. simpl.
    destruct (server _ _) as [status data|]; [|done].
    destruct (validateStatus status); [done|].
    unfold failureStage, canRefresh; simpl.
    destruct (status =? 0)%Z; simpl; [done|].
    by rewrite andb_false_r. }
  destruct (server _ _) as [status data|]; [|apply Hst].
  destruct (validateStatus status); [done|apply Hst].
Qed.

(** C2. Whatever the server answers and however often it answers 401, a
    call of the client (given a recursion budget of at least two) settles
    after its own send plus at most one refresh and at most one further
    send; a further send happens only after a refresh, is a resubmission of
    the same request with the marker set, and the original request was
    unmarked; a request that already carries the marker is sent once and
    nothing else. At the failure stage, a 401 whose request carries the marker
    is rejected as it came, with no refresh, no logout and no resubmission. *)
Theorem at_most_one_retry fuel config (s : State (W:=W)) :
  2 ≤ fuel →
  (∃ r s' new,
     client fuel config s = (Some r, s') ∧
     events s' = events s ++ Sent (merged config s) :: new ∧
     sends new ≤ 1 ∧ refreshes new ≤ 1 ∧ sends new ≤ refreshes new ∧
     (∀ pre request post, new = pre ++ Sent request :: post →
        resent_of (merged config s) request) ∧
     (_retry config = true → new = [])) ∧
  (∀ resubmit e originalRequest response (s0 : State (W:=W)),
     error_config e = Some originalRequest →
     error_response e = Some response →
     response_status response = 401%Z →
     _retry originalRequest = true →
     stage resubmit (AxiosErr e) s0 = (Some (Rejected (AxiosErr e)), s0)).
Proof.
  intros Hfuel. split.
  - destruct fuel as [|[|fuel]]; [lia|lia|].
    destruct (client_events fuel config s) as (r & s' & new & Hrun & Hev & Htr).
    exists r, s', new. split; [done|]. split; [done|].
    destruct (stage_trace_counts _ _ Htr) as (H1 & H2 & H3).
    do 3 (split; [done|]). split.
    + intros pre request post Heq.
      destruct (stage_trace_resent _ _ _ _ _ Htr Heq) as (o & [= <-] & Ho). done.
    + intros Hm.
      destruct (client_marked (S fuel) config s Hm) as [r' Hr'].
      rewrite Hrun in Hr'. injection Hr' as _ ->. simpl in Hev.
      apply app_inv_head in Hev. by injection Hev.
  - intros resubmit e originalRequest response s0 Hc Hr Hs Hm.
    apply (stage_not_first_401 _ _ _ _ _ Hc Hr).
    + rewrite Hs. done.
    + by rewrite Hm, andb_false_r.
Qed.

(** C6 (as amended). A failure that carries no HTTP response with a status
    code ([config], [response] or [response.status] missing, or not an
    [AxiosError] at all) triggers no refresh, no logout and no resubmission:
    the session and the log stay as they were, and the caller's promise is
    rejected with a new generic error, ["Failed to refresh token"], in place
    of the failure. In particular a request that gets no reply is sent once
    and rejected with that generic error. *)
Theorem failure_without_status_rejected_generic :
  (∀ resubmit error (s : State (W:=W)),
     canRefresh error = false →
     stage resubmit error s =
     (Some (Rejected (PlainError "Failed to refresh token")), s)) ∧
  (∀ fuel config (s : State (W:=W)),
     server (events s) (merged config s) = NoReply →
     client (S fuel) config s =
     (Some (Rejected (PlainError "Failed to refresh token")),
      mkState (world s) (events s ++ [Sent (merged config s)]))).
Proof.
  split.
  - intros resubmit error s Hcan. unfold failureStage.
    destruct (canRefresh error); [discriminate Hcan|reflexivity].
  - intros fuel config s Hreply. cbn [bitbucket]. unfold_M.
    cbn [fst] in Hreply. rewrite Hreply.
    unfold failureStage, canRefresh. reflexivity.
Qed.

(** C7. When the interceptors were set up with a mode other than ["saas"], a
    request answered 401 is sent once; the refresh callback is not invoked,
    nothing is resubmitted, the session is untouched, and the caller's promise
    is rejected with the error of that 401 (its request config now carrying
    the marker, if it did not before). The same holds at the failure stage for
    every 401 error that reaches it. *)
Theorem not_saas_401_passes_through :
  appMode ≠ "saas" →
  (∀ fuel config data (s : State (W:=W)),
     server (events s) (merged config s) = HttpReply 401 data →
     let request := merged config s in
     let e := mkAxiosError "Request failed" "ERR_BAD_RESPONSE" (Some request)
                (Some (mkResponse 401 data request)) in
     client (S fuel) config s =
     (Some (Rejected (AxiosErr (if _retry config then e else mark_retry e))),
      mkState (world s) (events s ++ [Sent request]))) ∧
  (∀ resubmit e originalRequest response (s : State (W:=W)),
     error_config e = Some originalRequest →
     error_response e = Some response →
     response_status response = 401%Z →
     stage resubmit (AxiosErr e) s =
     (Some (Rejected (AxiosErr (if _retry originalRequest then e else mark_retry e))), s)).
Proof.
  intros Hmode.
  assert (Hstage : ∀ resubmit e originalRequest response (s : State (W:=W)),
     error_config e = Some originalRequest →
     error_response e = Some response →
     response_status response = 401%Z →
     stage resubmit (AxiosErr e) s =
     (Some (Rejected (AxiosErr (if _retry originalRequest then e else mark_retry e))), s)).
  { intros resubmit e originalRequest response s Hc Hr Hs.
    destruct (_retry originalRequest) eqn:Hm.
    - apply (stage_not_first_401 _ _ _ _ _ Hc Hr).
      + rewrite Hs. done.
      + by rewrite Hm, andb_false_r.
    - by apply (stage_401_not_saas _ _ _ _ _ Hmode Hc Hr). }
  split; [|exact Hstage].
  intros fuel config data s Hreply. cbv zeta.
  cbn [bitbucket]. unfold_M. simpl in *. rewrite Hreply.
  change (validateStatus 401) with false. cbv iota.
  erewrite Hstage by reflexivity. reflexivity.
Qed.

End Facts.

Lemma at_most_one_retry_witness :
  ∃ r s' new,
    bitbucket (λ _, None) "saas" (λ w, (Fulfilled true, w)) (λ w, w) always_401
              2 plain_request unit_state = (Some r, s') ∧
    events s' = Sent plain_request :: new ∧ sends new ≤ 1.
Proof.
  destruct (at_most_one_retry (λ _, None) "saas" (λ w, (Fulfilled true, w))
              (λ w, w) always_401 2 plain_request unit_state (le_n 2))
    as [(r & s' & new & H1 & H2 & H3 & _) _].
  exists r, s', new. auto.
Defined.

Lemma failure_without_status_rejected_generic_witness :
  failureStage "saas" (λ w, (Fulfilled true, w)) (λ w, w) (λ _ s, (None, s))
               network_error unit_state =
  (Some (Rejected (PlainError "Failed to refresh token")), unit_state).
Proof.
  apply (proj1 (failure_without_status_rejected_generic (λ _, None) "saas"
                  (λ w, (Fulfilled true, w)) (λ w, w) always_401)
           (λ _ s, (None, s)) network_error unit_state).
  reflexivity.
Defined.

(** C6 as worded has the failure reach the caller unmodified; a
    network failure comes out replaced by the generic error. *)
Lemma network_failure_is_replaced :
  let out := failureStage "saas" (λ w, (Fulfilled true, w)) (λ w, w)
               (λ _ s, (None, s)) network_error unit_state in
  out.1 = Some (Rejected (PlainError "Failed to refresh token")) ∧
  out.1 ≠ Some (Rejected network_error).
Proof. cbv zeta. split; [reflexivity|discriminate]. Qed.

Lemma not_saas_401_passes_through_witness :
  bitbucket (λ _, None) "oss" (λ w, (Fulfilled true, w)) (λ w, w) always_401
            1 plain_request unit_state =
  (Some (Rejected (AxiosErr (mark_retry
     (mkAxiosError "Request failed" "ERR_BAD_RESPONSE" (Some plain_request)
        (Some (mkResponse 401 JNull plain_request)))))),
   mkState tt [Sent plain_request]).
Proof.
  apply (proj1 (not_saas_401_passes_through (λ _, None) "oss"
                  (λ w, (Fulfilled true, w)) (λ w, w) always_401
                  ltac:(discriminate)) 0 plain_request JNull unit_state).
  reflexivity.
Defined.

End InterceptorFacts.

(** ** The success stage *)

Module SuccessStageFacts.
Import Interceptor Examples.

Lemma isBitbucketErrorResponse_shape data :
  truthy_primitive data = false →
  isBitbucketErrorResponse data = Normal (error_shape data).
Proof.
  unfold isBitbucketErrorResponse, truthy_primitive, error_shape.
  destruct data as [| |b|n|s|items|fields]; simpl; try done.
  - destruct b; done.
  - destruct (n =? 0)%Z; done.
  - destruct (String.eqb s ""); done.
  - intros _. destruct (fields !! "message") as [v|] eqn:E; done.
Qed.

Lemma isBitbucketErrorResponse_primitive data :
  truthy_primitive data = true →
  ∃ msg, isBitbucketErrorResponse data = Throw msg.
Proof.
  unfold isBitbucketErrorResponse, truthy_primitive.
  destruct data as [| |b|n|s|items|fields]; simpl; try done.
  - destruct b; [by eexists|done].
  - destruct (n =? 0)%Z; [done|by eexists].
  - destruct (String.eqb s ""); [done|by eexists].
Qed.

(** On the bodies of the predicate's declared parameter type, and on falsy
    primitives: the success stage turns the response into the synthesized
    failure exactly when the body is an object or array owning a [message]
    property with a defined value, and hands every other such response to the
    caller unchanged. *)
Theorem success_stage_sniffs_message response :
  truthy_primitive (response_data response) = false →
  (successStage response = Rejected (AxiosErr (synthesized response))
   ↔ error_shape (response_data response) = true) ∧
  (successStage response = Fulfilled response
   ↔ error_shape (response_data response) = false).
Proof.
  intros H. unfold successStage.
  rewrite (isBitbucketErrorResponse_shape _ H).
  destruct (error_shape (response_data response)); split; split; done.
Qed.

Lemma success_stage_sniffs_message_witness :
  let response := mkResponse 200 soft_error_body plain_request in
  successStage response = Rejected (AxiosErr (synthesized response)).
Proof.
  cbv zeta.
  apply (success_stage_sniffs_message
           (mkResponse 200 soft_error_body plain_request)).
  - reflexivity.
  - vm_compute. reflexivity.
Defined.

(** C5. Every body that is not an object or array with a defined [message]
    is to be passed through unchanged. The success stage does not do so for a
    2xx response whose body is the non-empty string ["Forbidden"]: the body
    has no [message], yet the guard [!!data] lets it reach the [in] test,
    which throws, and the caller gets a [TypeError] instead of the response. *)
Lemma string_body_is_not_passed_through :
  let response := mkResponse 200 (JStr "Forbidden") plain_request in
  error_shape (response_data response) = false ∧
  successStage response ≠ Fulfilled response ∧
  successStage response = Rejected (TypeError "Cannot use 'in' operator").
Proof. cbv zeta. split; [reflexivity|]. split; [discriminate|reflexivity]. Qed.

(** The stages are installed as one [then(success, failure)] pair, so the
    synthesized failure goes to the caller without entering the failure
    stage. Had it entered, the outcome would be the same: its status is a
    valid one, hence neither [0] nor [401]. *)
Lemma synthesized_unchanged_by_failure_stage {W} appMode refreshToken logout
    resubmit response (s : State (W:=W)) :
  validateStatus (response_status response) = true →
  failureStage appMode refreshToken logout resubmit
    (AxiosErr (synthesized response)) s =
  (Some (Rejected (AxiosErr (synthesized response))), s).
Proof.
  intros [H1 H2]%andb_true_iff.
  apply Z.leb_le in H1. apply Z.ltb_lt in H2.
  eapply InterceptorFacts.stage_not_first_401; [reflexivity..| |].
  - lia.
  - destruct (Z.eqb_spec (response_status response) 401); [lia|done].
Qed.

(** A reply with a valid status is settled by the success stage alone. *)
Lemma client_valid_status {W} defaults appMode refreshToken logout server
    fuel config status data (s : State (W:=W)) :
  let request := (mergeConfig defaults config s).1 in
  server (events s) request = HttpReply status data →
  validateStatus status = true →
  bitbucket defaults appMode refreshToken logout server (S fuel) config s =
  (Some (successStage (mkResponse status data request)),
   mkState (world s) (events s ++ [Sent request])).
Proof.
  cbv zeta. intros Hreply Hvalid. cbn [bitbucket].
  InterceptorFacts.unfold_M. simpl in *. by rewrite Hreply, Hvalid.
Qed.

End SuccessStageFacts.

(** ** The refresh coordinator *)

Module CoordinatorFacts.
Import HeaderManager Auth Examples HeaderFacts AuthFacts.

Lemma proceeds_false view config :
  proceeds view config = false ↔
  APP_MODE config ≠ "saas" ∨ ¬ ∃ t, gitHubTokenState view = Some t ∧ t ≠ "".
Proof.
  unfold proceeds. rewrite andb_false_iff, <- truthy_token_true.
  destruct (String.eqb_spec (APP_MODE config) "saas") as [Heq|Hne].
  - split; [intros [|H]; [done|] | intros [|H]; [done|]].
    + right. by rewrite H.
    + right. by destruct (truthy_token _).
  - split; auto.
Qed.

Lemma api_calls_record_call c w : api_calls (record_call c w) = api_calls w ++ [c].
Proof. reflexivity. Qed.

Lemma api_calls_setGitHubToken t w : api_calls (setGitHubToken t w) = api_calls w.
Proof. destruct t as [t|]; simpl; [destruct (truthy_string t)|]; reflexivity. Qed.

Lemma clearGitHubToken_absent w :
  let w' := clearGitHubToken w in
  tokenState GitHub w' = None ∧ storedToken GitHub w' = None ∧
  authHeader GitHub w' = None.
Proof.
  cbv zeta. split; [done|]. split; [|done].
  unfold storedToken, Storage.getItem.
  change (localStorage (clearGitHubToken w))
    with (Storage.removeItem "ghToken" (localStorage w)).
  apply lookup_delete_eq.
Qed.

Lemma api_calls_clearGitHubToken w : api_calls (clearGitHubToken w) = api_calls w.
Proof. reflexivity. Qed.

Lemma setGitHubToken_installed t w :
  truthy_token t = true →
  let w' := setGitHubToken t w in
  tokenState GitHub w' = t ∧ storedToken GitHub w' = t.
Proof.
  intros (s & -> & Hs)%truthy_token_true.
  destruct (setToken_present GitHub s w Hs) as (H1 & H2 & H3). done.
Qed.

(** C3 (as amended). Once the config is fetched, [refreshToken] returns
    [false] with no exchange call and no change to the session unless
    [APP_MODE] is ["saas"] and the GitHub token its closure sees is present.
    Otherwise it issues the exchange, once, and: on a present new token it
    installs it through [setGitHubToken] (so the state cell and storage hold
    it) and returns [true]; on an absent or empty one it clears the GitHub
    credential through [clearGitHubToken] and returns [false]; when the
    exchange rejects, it rejects with the same error and leaves the
    credentials as they were. *)
Theorem refreshToken_contract view config exchange w :
  let out := refreshToken view (Fulfilled config) exchange w in
  (proceeds view config = false →
     out = (Fulfilled false, record_call GetConfig w)) ∧
  (proceeds view config = true →
     api_calls out.2 =
       api_calls w ++ [GetConfig; RefreshToken (APP_MODE config) (userIdState view)] ∧
     match exchange (APP_MODE config) (userIdState view) with
     | Fulfilled newToken =>
         let w1 := record_call (RefreshToken (APP_MODE config) (userIdState view))
                     (record_call GetConfig w) in
         if truthy_token newToken then
           out = (Fulfilled true, setGitHubToken newToken w1) ∧
           tokenState GitHub out.2 = newToken ∧ storedToken GitHub out.2 = newToken
         else
           out = (Fulfilled false, clearGitHubToken w1) ∧
           tokenState GitHub out.2 = None ∧ storedToken GitHub out.2 = None
     | Rejected e =>
         out = (Rejected e,
                record_call (RefreshToken (APP_MODE config) (userIdState view))
                  (record_call GetConfig w))
     end).
Proof.
  cbv zeta. unfold refreshToken, proceeds.
  rewrite <- negb_andb.
  destruct (_ && _); cbn [negb]; (split; [done|]); [|done].
  intros _.
  destruct (exchange _ _) as [newToken|e]; cbn [fst snd].
  - destruct (truthy_token newToken) eqn:E; cbn [fst snd].
    + split; [|split; [done|]].
      * rewrite api_calls_setGitHubToken, !api_calls_record_call.
        by rewrite <- app_assoc.
      * by apply setGitHubToken_installed.
    + split.
      * rewrite api_calls_clearGitHubToken, !api_calls_record_call.
        by rewrite <- app_assoc.
      * split; [done|].
        destruct (clearGitHubToken_absent
                    (record_call (RefreshToken (APP_MODE config) (userIdState view))
                       (record_call GetConfig w))) as (H1 & H2 & _).
        done.
  - split; [|done]. rewrite !api_calls_record_call. by rewrite <- app_assoc.
Qed.

Lemma refreshToken_contract_witness :
  refreshToken signed_in_view (Fulfilled (mkConfig "oss"))
               (λ _ _, Fulfilled (Some "ghp_new")) signed_in
  = (Fulfilled false, record_call GetConfig signed_in).
Proof.
  apply (proj1 (refreshToken_contract signed_in_view (mkConfig "oss")
                  (λ _ _, Fulfilled (Some "ghp_new")) signed_in)).
  reflexivity.
Defined.

(** C3 as worded has every failure of the exchange end in a cleared
    credential and [false]; an exchange that rejects makes [refreshToken]
    reject, with the GitHub credential still in place. *)
Lemma exchange_rejection_propagates :
  let out := refreshToken signed_in_view (Fulfilled (mkConfig "saas"))
               (λ _ _, Rejected (PlainError "Network Error")) signed_in in
  out.1 = Rejected (PlainError "Network Error") ∧
  out.1 ≠ Fulfilled false ∧
  tokenState GitHub out.2 = Some "ghp_old" ∧
  storedToken GitHub out.2 = Some "ghp_old".
Proof.
  cbv zeta. split; [reflexivity|]. split; [discriminate|].
  split; [reflexivity|].
  vm_compute. reflexivity.
Qed.

(** [refreshToken] never touches the Bitbucket credential or client. *)
Lemma refreshToken_frames_bitbucket view getConfig exchange w :
  let w' := (refreshToken view getConfig exchange w).2 in
  bitbucket w' = bitbucket w ∧
  tokenState Bitbucket w' = tokenState Bitbucket w ∧
  storedToken Bitbucket w' = storedToken Bitbucket w.
Proof.
  cbv zeta. split; [apply refreshToken_bitbucket|].
  unfold refreshToken, storedToken, Storage.getItem.
  destruct getConfig as [config|e]; [|done].
  destruct (_ || _); [done|].
  destruct (exchange _ _) as [newToken|e]; [|done].
  destruct (truthy_token newToken) eqn:E; simpl.
  - destruct newToken as [t|]; [|done]. simpl in E. simpl. rewrite E. simpl.
    unfold Storage.setItem. by rewrite lookup_insert_ne.
  - unfold Storage.removeItem. by rewrite lookup_delete_ne.
Qed.

End CoordinatorFacts.

(** ** Refresh failure and the retried request, end to end *)

Module SessionFacts.
Import HeaderManager Auth Interceptor Session Examples HeaderFacts AuthFacts CoordinatorFacts.

Local Abbreviation merged config s :=
  (mergeConfig defaults_Authorization config s).1.

Lemma logout_credentials w :
  (∀ p, tokenState p (logout w) = None ∧ storedToken p (logout w) = None) ∧
  userIdState (react (logout w)) = "" ∧
  Storage.getItem "userId" (localStorage (logout w)) = None.
Proof.
  unfold storedToken, Storage.getItem. rewrite logout_localStorage.
  split; [|split; [done|apply lookup_delete_eq]].
  intros [|]; simpl; (split; [done|]);
    rewrite !lookup_delete; repeat case_decide; done.
Qed.

Lemma client_first_401 appMode view getConfig exchange server fuel config data
    (s : State) :
  server (events s) (merged config s) = HttpReply 401 data →
  client appMode view getConfig exchange server (S fuel) config s =
  failureStage appMode (refreshToken view getConfig exchange) logout
    (bitbucket defaults_Authorization appMode
       (refreshToken view getConfig exchange) logout server fuel)
    (AxiosErr (mkAxiosError "Request failed" "ERR_BAD_RESPONSE"
                 (Some (merged config s))
                 (Some (mkResponse 401 data (merged config s)))))
    (mkState (world s) (events s ++ [Sent (merged config s)])).
Proof.
  intros Hreply. unfold client. cbn [bitbucket].
  InterceptorFacts.unfold_M. simpl in *. by rewrite Hreply.
Qed.

(** C4. In saas mode, when an unmarked request is answered 401 and the
    refresh callback ([refreshToken] of the controller) returns [false] or
    rejects, the failure stage calls [logout] and the caller's promise settles
    as rejected: with the generic error after [false], with the thrown error
    otherwise. Nothing is resubmitted, and afterwards no provider has a token
    in its state cell or in storage and the user id is cleared. *)
Theorem refresh_failure_logs_out view getConfig exchange server fuel config data
    (s : State) :
  _retry config = false →
  server (events s) (merged config s) = HttpReply 401 data →
  let refreshed := refreshToken view getConfig exchange (world s) in
  (refreshed.1 = Fulfilled false ∨ ∃ e, refreshed.1 = Rejected e) →
  ∃ thrown s',
    client "saas" view getConfig exchange server (S fuel) config s =
      (Some (Rejected thrown), s') ∧
    thrown = match refreshed.1 with
             | Rejected e => e
             | Fulfilled _ => generic_failure
             end ∧
    LogoutCalled ∈ events s' ∧
    sends (events s') = sends (events s) + 1 ∧
    world s' = logout refreshed.2 ∧
    (∀ p, tokenState p (world s') = None ∧ storedToken p (world s') = None) ∧
    userIdState (react (world s')) = "" ∧
    Storage.getItem "userId" (localStorage (world s')) = None.
Proof.
  intros Hfresh Hreply refreshed Hfail.
  rewrite (client_first_401 _ _ _ _ _ _ _ _ _ Hreply).
  destruct refreshed as [r w'] eqn:Hr. simpl in Hfail.
  set (s1 := mkState (world s) (events s ++ [Sent (merged config s)])).
  assert (Hsends : ∀ new, sends new = 0 →
            sends (events s1 ++ new) = sends (events s) + 1).
  { intros new Hnew. unfold sends in *. simpl.
    rewrite !filter_app, !length_app, Hnew. simpl. lia. }
  destruct Hfail as [->|[e ->]].
  - eexists _, _. split.
    { eapply InterceptorFacts.stage_refresh_false; try reflexivity; [done|exact Hr]. }
    cbn [world events fst snd]. split; [done|]. split; [set_solver|].
    split; [by apply Hsends|].
    rewrite logout_idemp. split; [done|]. apply logout_credentials.
  - eexists _, _. split.
    { eapply InterceptorFacts.stage_refresh_rejects; try reflexivity; [done|exact Hr]. }
    cbn [world events fst snd]. split; [done|]. split; [set_solver|].
    split; [by apply Hsends|].
    split; [done|]. apply logout_credentials.
Qed.

Lemma refresh_failure_logs_out_witness :
  ∃ thrown s',
    client "saas" signed_in_view (Fulfilled (mkConfig "saas"))
           (λ _ _, Rejected (PlainError "Network Error"))
           always_401 1 plain_request
           signed_in_state = (Some (Rejected thrown), s') ∧
    LogoutCalled ∈ events s' ∧
    tokenState GitHub (world s') = None.
Proof.
  destruct (refresh_failure_logs_out signed_in_view (Fulfilled (mkConfig "saas"))
              (λ _ _, Rejected (PlainError "Network Error"))
              always_401 0 plain_request JNull
              signed_in_state eq_refl eq_refl
              (or_intror (ex_intro _ (PlainError "Network Error") eq_refl)))
    as (thrown & s' & Hrun & _ & Hlogout & _ & _ & Htokens & _).
  exists thrown, s'. split; [exact Hrun|]. split; [exact Hlogout|].
  exact (proj1 (Htokens GitHub)).
Defined.

(** Sending the marked request again merges it with defaults that the
    refresh has not changed: the request goes out as it was. *)
Lemma merged_resubmit config (s : State) w' es :
  defaults_Authorization w' = defaults_Authorization (world s) →
  merged (set_retry (merged config s)) (mkState w' es) = set_retry (merged config s).
Proof.
  intros H. unfold mergeConfig, set_retry. cbn.
  destruct (headers_Authorization config) as [h|]; [done|].
  rewrite H. by destruct (defaults_Authorization (world s)).
Qed.

(** C10. In saas mode, when an unmarked request of the Bitbucket client is
    answered 401 and [refreshToken] returns [true]: the refresh has installed
    a new GitHub token (state cell and storage); the Bitbucket client's
    defaults, the Bitbucket state cell and the stored
    Bitbucket token are what they were; and the request is resubmitted once,
    marked, with the very [Authorization] value the rejected send carried. *)
Theorem refresh_leaves_bitbucket_authorization view getConfig exchange server
    fuel config data (s : State) :
  _retry config = false →
  server (events s) (merged config s) = HttpReply 401 data →
  let refreshed := refreshToken view getConfig exchange (world s) in
  refreshed.1 = Fulfilled true →
  let request := merged config s in
  (∃ newToken, newToken ≠ "" ∧
     tokenState GitHub refreshed.2 = Some newToken ∧
     storedToken GitHub refreshed.2 = Some newToken) ∧
  (Auth.bitbucket refreshed.2 = Auth.bitbucket (world s) ∧
   tokenState Bitbucket refreshed.2 = tokenState Bitbucket (world s) ∧
   storedToken Bitbucket refreshed.2 = storedToken Bitbucket (world s)) ∧
  ∃ r s' rest,
    client "saas" view getConfig exchange server (S (S fuel)) config s = (Some r, s') ∧
    events s' =
      events s ++ [Sent request; RefreshCalled; Sent (set_retry request)] ++ rest ∧
    (rest = [] ∨ rest = [LogoutCalled]) ∧
    sent_Authorization ([Sent request; RefreshCalled; Sent (set_retry request)] ++ rest)
    = [headers_Authorization request; headers_Authorization request].
Proof.
  intros Hfresh Hreply refreshed Htrue request.
  pose proof (refreshToken_frames_bitbucket view getConfig exchange (world s))
    as Hframe. cbv zeta in Hframe. fold refreshed in Hframe.
  split; [|split; [exact Hframe|]].
  - subst refreshed. unfold refreshToken in *.
    destruct getConfig as [cfg|e]; [|done].
    destruct (_ || _); [done|].
    destruct (exchange _ _) as [newToken|e]; [|done].
    destruct (truthy_token newToken) eqn:E; [|done].
    apply truthy_token_true in E as (t & -> & Ht).
    exists t. split; [done|]. cbn [snd].
    destruct (setToken_present GitHub t
                (record_call (RefreshToken (APP_MODE cfg) (userIdState view))
                   (record_call GetConfig (world s))) Ht) as (H1 & H2 & _).
    done.
  - rewrite (client_first_401 _ _ _ _ _ _ _ _ _ Hreply).
    destruct refreshed as [r w'] eqn:Hr. cbn [fst snd] in *. subst r.
    erewrite InterceptorFacts.stage_refresh_true;
      [|reflexivity|reflexivity|reflexivity|reflexivity|exact Hfresh|exact Hr].
    set (s2 := mkState w' _). subst request. set (request := merged config s).
    destruct (InterceptorFacts.client_marked defaults_Authorization "saas"
                (refreshToken view getConfig exchange) logout server fuel
                (set_retry request) s2 eq_refl) as [retried Hretried].
    rewrite Hretried.
    assert (Hsame : merged (set_retry request) s2 = set_retry request).
    { apply merged_resubmit. unfold defaults_Authorization.
      by rewrite (proj1 Hframe). }
    rewrite Hsame.
    destruct retried as [a|err].
    + exists (Fulfilled a), (mkState (world s2) (events s2 ++ [Sent (set_retry request)])), [].
      split; [done|]. split; [|split; [by left|done]].
      cbn [events s2]. by rewrite <- !app_assoc.
    + eexists (Rejected err), _, [LogoutCalled].
      split; [done|]. split; [|split; [by right|done]].
      cbn [events s2]. by rewrite <- !app_assoc.
Qed.

Lemma refresh_leaves_bitbucket_authorization_witness :
  let w := setBitbucketToken (Some "bb_1") signed_in in
  ∃ r s',
    client "saas" signed_in_view (Fulfilled (mkConfig "saas"))
           (λ _ _, Fulfilled (Some "ghp_new"))
           always_401 2 plain_request
           (mkState w []) = (Some r, s') ∧
    sent_Authorization (events s') = [Some "Bearer bb_1"; Some "Bearer bb_1"].
Proof.
  cbv zeta.
  destruct (refresh_leaves_bitbucket_authorization signed_in_view
              (Fulfilled (mkConfig "saas")) (λ _ _, Fulfilled (Some "ghp_new"))
              always_401 0 plain_request JNull
              (mkState (setBitbucketToken (Some "bb_1") signed_in) [])
              eq_refl eq_refl eq_refl)
    as (_ & _ & r & s' & rest & Hrun & Hev & _ & Hauth).
  exists r, s'. split; [exact Hrun|].
  rewrite Hev. exact Hauth.
Defined.

End SessionFacts.

(** ** Two refreshes in flight *)

Module RefreshFacts.
Import Auth Refresh Examples HeaderFacts AuthFacts CoordinatorFacts.

(** The function [refreshToken] is its three segments run back to back. *)
Lemma refreshToken_segments view getConfig exchange w :
  refreshToken view getConfig exchange w =
  match on_config view getConfig (start w).2, getConfig with
  | (AwaitingExchange, w1), Fulfilled config =>
      match on_exchange (exchange (APP_MODE config) (userIdState view)) w1 with
      | (Done r, w2) => (r, w2)
      | (_, w2) => (Fulfilled false, w2)
      end
  | (Done r, w1), _ => (r, w1)
  | (_, w1), _ => (Fulfilled false, w1)
  end.
Proof.
  unfold refreshToken, on_config, on_exchange, start. cbn [snd].
  destruct getConfig as [config|e]; [|done].
  destruct (_ || _); [done|].
  destruct (exchange _ _) as [newToken|e]; [|done].
  by destruct (truthy_token newToken).
Qed.

Lemma on_config_proceeds view config w :
  proceeds view config = true →
  on_config view (Fulfilled config) w =
  (AwaitingExchange,
   record_call (RefreshToken (APP_MODE config) (userIdState view)) w).
Proof.
  unfold proceeds, on_config. rewrite <- negb_andb. by intros ->.
Qed.

Lemma on_exchange_token t w :
  t ≠ "" →
  on_exchange (Fulfilled (Some t)) w = (Done (Fulfilled true), setGitHubToken (Some t) w).
Proof.
  intros Ht%truthy_string_true. unfold on_exchange. cbn [truthy_token]. by rewrite Ht.
Qed.

Lemma exchanges_record_call c w :
  exchanges (record_call c w) = exchanges w + (if is_exchange c then 1 else 0).
Proof.
  unfold exchanges. rewrite api_calls_record_call, filter_app, length_app.
  by destruct c.
Qed.

Lemma exchanges_setGitHubToken t w : exchanges (setGitHubToken t w) = exchanges w.
Proof. unfold exchanges. by rewrite api_calls_setGitHubToken. Qed.

(** An invocation that gets its config goes on to the exchange whatever the
    other invocation is doing: nothing in the session says a refresh is
    already under way. *)
Lemma exchange_issued_regardless view config who s :
  proceeds view config = true →
  task_of who s = Some AwaitingConfig →
  let s' := turn view (ConfigArrives who (Fulfilled config)) s in
  task_of who s' = Some AwaitingExchange ∧
  exchanges (session s') = exchanges (session s) + 1.
Proof.
  intros Hp Ht. cbv zeta. unfold turn. rewrite Ht, (on_config_proceeds _ _ _ Hp).
  destruct who; cbn [put task_of first second session fst snd];
    by rewrite exchanges_record_call.
Qed.

(** C9. When [refreshToken] is invoked twice before either invocation
    completes (saas mode, GitHub token present in the closure), each
    invocation issues its own exchange, two in all, each returns [true], and
    each writes the shared GitHub credential: the token left in the state
    cell and in storage is the one of whichever exchange settled last. An invocation that receives its config issues its exchange
    whatever state the other invocation is in. *)
Theorem concurrent_refreshes_not_serialized view config tokenFirst tokenSecond later w :
  proceeds view config = true →
  tokenFirst ≠ "" → tokenSecond ≠ "" →
  let final := run view (overlapped config tokenFirst tokenSecond later) (idle w) in
  let last := token_of later tokenFirst tokenSecond in
  first final = Some (Done (Fulfilled true)) ∧
  second final = Some (Done (Fulfilled true)) ∧
  exchanges (session final) = exchanges w + 2 ∧
  tokenState GitHub (session final) = Some last ∧
  storedToken GitHub (session final) = Some last ∧
  (∀ who s,
     task_of who s = Some AwaitingConfig →
     exchanges (session (turn view (ConfigArrives who (Fulfilled config)) s))
     = exchanges (session s) + 1).
Proof.
  intros Hp HA HB. cbv zeta.
  assert (Hgeneral : ∀ who s,
     task_of who s = Some AwaitingConfig →
     exchanges (session (turn view (ConfigArrives who (Fulfilled config)) s))
     = exchanges (session s) + 1).
  { intros who s Ht. by apply (exchange_issued_regardless view config who s Hp Ht). }
  unfold overlapped, run, idle.
  destruct later; cbn [foldl app turn task_of put first second session fst snd start
                       token_of];
    rewrite !(on_config_proceeds _ _ _ Hp);
    cbn [turn task_of put first second session fst snd];
    rewrite ?(on_exchange_token _ _ HA), ?(on_exchange_token _ _ HB);
    cbn [turn task_of put first second session fst snd];
    rewrite ?(on_exchange_token _ _ HA), ?(on_exchange_token _ _ HB);
    cbn [turn task_of put first second session fst snd];
    (split; [done|]); (split; [done|]);
    (split; [rewrite !exchanges_setGitHubToken, !exchanges_record_call;
             cbn [is_exchange]; lia|]).
  - destruct (setToken_present GitHub tokenFirst
                (setGitHubToken (Some tokenSecond)
                   (record_call (RefreshToken (APP_MODE config) (userIdState view))
                      (record_call (RefreshToken (APP_MODE config) (userIdState view))
                         (record_call GetConfig (record_call GetConfig w))))) HA)
      as (H1 & H2 & H3).
    done.
  - destruct (setToken_present GitHub tokenSecond
                (setGitHubToken (Some tokenFirst)
                   (record_call (RefreshToken (APP_MODE config) (userIdState view))
                      (record_call (RefreshToken (APP_MODE config) (userIdState view))
                         (record_call GetConfig (record_call GetConfig w))))) HB)
      as (H1 & H2 & H3).
    done.
Qed.

Lemma concurrent_refreshes_not_serialized_witness :
  let final := run signed_in_view
                 (overlapped (mkConfig "saas") "ghp_a" "ghp_b" First)
                 (idle signed_in) in
  exchanges (session final) = exchanges signed_in + 2 ∧
  tokenState GitHub (session final) = Some "ghp_a".
Proof.
  cbv zeta.
  destruct (concurrent_refreshes_not_serialized signed_in_view (mkConfig "saas")
              "ghp_a" "ghp_b" First signed_in eq_refl
              ltac:(discriminate) ltac:(discriminate))
    as (_ & _ & H1 & H2 & _).
  exact (conj H1 H2).
Defined.

End RefreshFacts.

(** ** The controller's operations: invariants, frames and composition *)

Module ControllerFacts.
Import HeaderManager Auth Startup Invariants Examples HeaderFacts AuthFacts CoordinatorFacts.

Lemma storage_key_inj p q : storage_key p = storage_key q → p = q.
Proof. by destruct p, q. Qed.

Lemma storage_key_userId p : storage_key p ≠ "userId".
Proof. by destruct p. Qed.

(** What each operation does to the state cells and to storage. *)
Lemma setToken_localStorage p t w :
  localStorage (setToken p t w) =
  if truthy_token t then <[storage_key p := default "" t]> (localStorage w)
  else delete (storage_key p) (localStorage w).
Proof.
  destruct p, t as [t|]; simpl; try reflexivity;
    destruct (truthy_string t); reflexivity.
Qed.

Lemma clearToken_localStorage p w :
  localStorage (clearToken p w) = delete (storage_key p) (localStorage w).
Proof. by destruct p. Qed.

Lemma setToken_tokenState p q t w :
  tokenState q (setToken p t w) =
  if decide (p = q) then (if truthy_token t then t else None) else tokenState q w.
Proof.
  destruct p, q, t as [t|]; simpl; try reflexivity;
    destruct (truthy_string t); reflexivity.
Qed.

Lemma clearToken_tokenState p q w :
  tokenState q (clearToken p w) = if decide (p = q) then None else tokenState q w.
Proof. by destruct p, q. Qed.

Lemma setToken_storedToken p q t w :
  storedToken q (setToken p t w) =
  if decide (p = q) then (if truthy_token t then t else None) else storedToken q w.
Proof.
  unfold storedToken, Storage.getItem. rewrite setToken_localStorage.
  case_decide as Hpq.
  - subst q. destruct t as [t|]; simpl.
    + destruct (truthy_string t); [apply lookup_insert_eq|apply lookup_delete_eq].
    + apply lookup_delete_eq.
  - assert (storage_key p ≠ storage_key q) by (intros ?%storage_key_inj; done).
    destruct (truthy_token t); [by rewrite lookup_insert_ne|by rewrite lookup_delete_ne].
Qed.

Lemma clearToken_storedToken p q w :
  storedToken q (clearToken p w) = if decide (p = q) then None else storedToken q w.
Proof.
  rewrite <- setToken_None, setToken_storedToken. reflexivity.
Qed.

Lemma setToken_userId p t w :
  userIdState (react (setToken p t w)) = userIdState (react w) ∧
  Storage.getItem "userId" (localStorage (setToken p t w)) =
  Storage.getItem "userId" (localStorage w).
Proof.
  split.
  - destruct p, t as [t|]; simpl; try reflexivity;
      destruct (truthy_string t); reflexivity.
  - unfold Storage.getItem. rewrite setToken_localStorage.
    pose proof (storage_key_userId p).
    destruct (truthy_token t); [by rewrite lookup_insert_ne|by rewrite lookup_delete_ne].
Qed.

Lemma setToken_bitbucket_header p t w :
  authHeader Bitbucket (setToken p t w) =
  match p with
  | GitHub => authHeader Bitbucket w
  | Bitbucket =>
      if truthy_token t then Some ("Bearer " +:+ default "" t)
      else headers_common_Authorization (removeAuthTokenHeader (bitbucket w))
  end.
Proof.
  destruct p, t as [t|]; simpl; try reflexivity;
    destruct (truthy_string t); reflexivity.
Qed.

(** Whatever the backend answers, [refreshToken] ends in the session it
    started from, or in that session after one [setGitHubToken]. *)
Lemma refreshToken_cases view getConfig exchange w :
  ∃ w1, same_session w1 w ∧
    ((refreshToken view getConfig exchange w).2 = w1 ∨
     ∃ t, (refreshToken view getConfig exchange w).2 = setToken GitHub t w1).
Proof.
  unfold refreshToken.
  destruct getConfig as [config|e].
  2:{ exists (record_call GetConfig w). split; [done|by left]. }
  destruct (_ || _).
  { exists (record_call GetConfig w). split; [done|by left]. }
  exists (record_call (RefreshToken (APP_MODE config) (userIdState view))
            (record_call GetConfig w)).
  split; [done|].
  destruct (exchange _ _) as [newToken|e]; [|by left].
  right. destruct (truthy_token newToken).
  - by exists newToken.
  - by exists None.
Qed.

Lemma same_session_tokens w1 w p :
  same_session w1 w →
  tokenState p w1 = tokenState p w ∧ storedToken p w1 = storedToken p w ∧
  authHeader p w1 = authHeader p w.
Proof.
  intros (Hr & Hl & Hb & Hg & _). unfold storedToken.
  destruct p; simpl; rewrite ?Hr, ?Hl, ?Hb, ?Hg; done.
Qed.

Lemma setUserId_tokens view u w p :
  tokenState p (setUserId view u w) = tokenState p w ∧
  storedToken p (setUserId view u w) = storedToken p w ∧
  authHeader p (setUserId view u w) = authHeader p w.
Proof.
  split; [by destruct p|]. split; [|by destruct p].
  unfold storedToken, Storage.getItem.
  change (localStorage (setUserId view u w))
    with (<["userId" := u]> (localStorage w)).
  rewrite lookup_insert_ne; [done|]. intros H. by apply (storage_key_userId p).
Qed.

(** In every state the controller can reach, the token a provider has in
    its state cell is the token persisted for it. *)
Theorem reachable_state_is_storage w :
  reachable w → ∀ p, tokenState p w = storedToken p w.
Proof.
  induction 1 as [ls a|t w _ IH|t w _ IH|w _ IH|w _ IH|view u w _ IH|w _ IH
                  |view getConfig exchange w _ IH]; intros q.
  - by destruct q.
  - change (setGitHubToken t w) with (setToken GitHub t w).
    rewrite setToken_tokenState, setToken_storedToken. by case_decide.
  - change (setBitbucketToken t w) with (setToken Bitbucket t w).
    rewrite setToken_tokenState, setToken_storedToken. by case_decide.
  - change (clearGitHubToken w) with (clearToken GitHub w).
    rewrite clearToken_tokenState, clearToken_storedToken. by case_decide.
  - change (clearBitbucketToken w) with (clearToken Bitbucket w).
    rewrite clearToken_tokenState, clearToken_storedToken. by case_decide.
  - destruct (setUserId_tokens view u w q) as (-> & -> & _). apply IH.
  - destruct (SessionFacts.logout_credentials w) as (H & _).
    destruct (H q) as [-> ->]. reflexivity.
  - destruct (refreshToken_cases view getConfig exchange w) as (w1 & Hs & [->|[t ->]]).
    + destruct (same_session_tokens w1 w q Hs) as (-> & -> & _). apply IH.
    + rewrite setToken_tokenState, setToken_storedToken. case_decide; [done|].
      destruct (same_session_tokens w1 w q Hs) as (-> & -> & _). apply IH.
Qed.

Lemma reachable_state_is_storage_witness :
  let w := logout (setBitbucketToken (Some "abc123") (boot {["ghToken" := "ghp_1"]} None)) in
  tokenState GitHub w = storedToken GitHub w.
Proof.
  apply (reachable_state_is_storage _
           (reach_logout _ (reach_setBitbucketToken (Some "abc123") _
              (reach_boot {["ghToken" := "ghp_1"]} None)))).
Defined.

Lemma setBitbucketToken_backed t w :
  header_wf (bitbucket w) → bitbucket_header_backed (setToken Bitbucket t w).
Proof.
  intros Hwf. unfold bitbucket_header_backed.
  rewrite setToken_bitbucket_header, setToken_tokenState, setToken_storedToken.
  rewrite !decide_True by done.
  destruct (truthy_token t) eqn:E.
  - apply truthy_token_true in E as (s & -> & Hs). right. by exists s.
  - left. by apply removeAuthTokenHeader_absent.
Qed.

Lemma backed_transfer w1 w :
  authHeader Bitbucket w1 = authHeader Bitbucket w →
  tokenState Bitbucket w1 = tokenState Bitbucket w →
  storedToken Bitbucket w1 = storedToken Bitbucket w →
  bitbucket_header_backed w → bitbucket_header_backed w1.
Proof. unfold bitbucket_header_backed. by intros -> -> ->. Qed.

(** In every state the controller can reach, a Bitbucket [Authorization]
    header is never there on its own: when the client has one, it is
    ["Bearer " + t] for the non-empty token [t] that the state cell and
    storage both hold. *)
Theorem reachable_bitbucket_header_backed w :
  reachable w → bitbucket_header_backed w.
Proof.
  intros Hw. pose proof (reachable_header_wf w Hw) as Hwf. revert Hwf.
  induction Hw as [ls a|t w Hw IH|t w Hw IH|w Hw IH|w Hw IH|view u w Hw IH|w Hw IH
                   |view getConfig exchange w Hw IH]; intros Hwf.
  - by left.
  - specialize (IH (reachable_header_wf w Hw)).
    change (setGitHubToken t w) with (setToken GitHub t w).
    eapply backed_transfer; [| | |exact IH].
    + by rewrite setToken_bitbucket_header.
    + rewrite setToken_tokenState. by case_decide.
    + rewrite setToken_storedToken. by case_decide.
  - apply setBitbucketToken_backed. by apply reachable_header_wf.
  - specialize (IH (reachable_header_wf w Hw)).
    change (clearGitHubToken w) with (clearToken GitHub w).
    rewrite <- setToken_None.
    eapply backed_transfer; [| | |exact IH].
    + by rewrite setToken_bitbucket_header.
    + rewrite setToken_tokenState. by case_decide.
    + rewrite setToken_storedToken. by case_decide.
  - change (clearBitbucketToken w) with (clearToken Bitbucket w).
    rewrite <- setToken_None.
    apply setBitbucketToken_backed. by apply reachable_header_wf.
  - specialize (IH (reachable_header_wf w Hw)).
    destruct (setUserId_tokens view u w Bitbucket) as (H1 & H2 & H3).
    by eapply backed_transfer.
  - left.
    change (authHeader Bitbucket (logout w))
      with (headers_common_Authorization (removeAuthTokenHeader (bitbucket w))).
    apply removeAuthTokenHeader_absent. by apply reachable_header_wf.
  - specialize (IH (reachable_header_wf w Hw)).
    destruct (refreshToken_cases view getConfig exchange w) as (w1 & Hs & [->|[t ->]]);
      destruct (same_session_tokens w1 w Bitbucket Hs) as (H1 & H2 & H3).
    + by eapply backed_transfer.
    + eapply backed_transfer; [| | |exact IH].
      * by rewrite setToken_bitbucket_header.
      * rewrite setToken_tokenState. by case_decide.
      * rewrite setToken_storedToken. by case_decide.
Qed.

Lemma reachable_bitbucket_header_backed_witness :
  bitbucket_header_backed
    (setGitHubToken (Some "ghp_1") (setBitbucketToken (Some "abc123") (boot ∅ None))).
Proof.
  apply (reachable_bitbucket_header_backed _
           (reach_setGitHubToken (Some "ghp_1") _
              (reach_setBitbucketToken (Some "abc123") _ (reach_boot ∅ None)))).
Defined.

(** Setting or clearing one provider's token leaves the other provider's
    state cell, stored token and header, and the user id, as they were. *)
Theorem setToken_frames_other_provider p q t w :
  p ≠ q →
  tokenState q (setToken p t w) = tokenState q w ∧
  storedToken q (setToken p t w) = storedToken q w ∧
  authHeader q (setToken p t w) = authHeader q w ∧
  tokenState q (clearToken p w) = tokenState q w ∧
  storedToken q (clearToken p w) = storedToken q w ∧
  authHeader q (clearToken p w) = authHeader q w ∧
  userIdState (react (setToken p t w)) = userIdState (react w) ∧
  Storage.getItem "userId" (localStorage (setToken p t w)) =
  Storage.getItem "userId" (localStorage w).
Proof.
  intros Hpq.
  assert (Hheader : ∀ t', authHeader q (setToken p t' w) = authHeader q w).
  { intros t'. destruct p, q; try done.
    - by rewrite setToken_bitbucket_header.
    - destruct t' as [t'|]; simpl; [destruct (truthy_string t')|]; reflexivity. }
  rewrite <- !setToken_None, !setToken_tokenState, !setToken_storedToken, !Hheader.
  rewrite !decide_False by done.
  destruct (setToken_userId p t w) as [-> ->]. done.
Qed.

Lemma setToken_frames_other_provider_witness :
  let w := setGitHubToken (Some "ghp_1") (boot ∅ None) in
  tokenState GitHub (setBitbucketToken (Some "abc123") w) = tokenState GitHub w.
Proof.
  cbv zeta.
  apply (setToken_frames_other_provider Bitbucket GitHub (Some "abc123")
           (setGitHubToken (Some "ghp_1") (boot ∅ None)) ltac:(discriminate)).
Defined.

Lemma removeAuthTokenHeader_wf_None c :
  header_wf c → removeAuthTokenHeader c = with_Authorization None c.
Proof.
  unfold removeAuthTokenHeader, header_wf. destruct c as [b a [h|]]; simpl.
  - unfold truthy_string. destruct (String.eqb_spec h ""); [by subst|done].
  - done.
Qed.

Lemma setToken_bitbucket p t w :
  header_wf (bitbucket w) →
  bitbucket (setToken p t w) =
  match p with
  | GitHub => bitbucket w
  | Bitbucket =>
      with_Authorization
        (if truthy_token t then Some ("Bearer " +:+ default "" t) else None)
        (bitbucket w)
  end.
Proof.
  intros Hwf. destruct p.
  - apply setGitHubToken_bitbucket.
  - destruct t as [t|]; simpl; [destruct (truthy_string t); [reflexivity|]|];
      by apply removeAuthTokenHeader_wf_None.
Qed.

Lemma setToken_react p t w :
  react (setToken p t w) =
  match p with
  | GitHub => mkRender (if truthy_token t then t else None)
                       (bitbucketTokenState (react w)) (userIdState (react w))
  | Bitbucket => mkRender (gitHubTokenState (react w))
                          (if truthy_token t then t else None) (userIdState (react w))
  end.
Proof.
  destruct p, t as [t|]; simpl; try reflexivity;
    destruct (truthy_string t); reflexivity.
Qed.

Lemma setToken_other_fields p t w :
  posthog_identity (setToken p t w) = posthog_identity w ∧
  api_calls (setToken p t w) = api_calls w ∧
  github_Authorization (setToken p t w) =
    match p with
    | GitHub => if truthy_token t then Some ("Bearer " +:+ default "" t) else None
    | Bitbucket => github_Authorization w
    end ∧
  openHands_gitHubToken (setToken p t w) =
    match p with
    | GitHub => if truthy_token t then t else None
    | Bitbucket => openHands_gitHubToken w
    end.
Proof.
  destruct p, t as [t|]; simpl; try done; destruct (truthy_string t); done.
Qed.

(** In a reachable session a later [setToken] for a provider overrides an
    earlier one for the same provider completely: the session is the one the
    later call alone would give. In particular setting the same token twice is
    setting it once, and clearing after setting is clearing. *)
Theorem setToken_overrides p t1 t2 w :
  reachable w →
  setToken p t2 (setToken p t1 w) = setToken p t2 w.
Proof.
  intros Hw. pose proof (reachable_header_wf w Hw) as Hwf.
  assert (Hwf1 : header_wf (bitbucket (setToken p t1 w))).
  { apply reachable_header_wf. destruct p; by constructor. }
  destruct (setToken_other_fields p t2 (setToken p t1 w)) as (E1 & E2 & E3 & E4).
  destruct (setToken_other_fields p t2 w) as (F1 & F2 & F3 & F4).
  destruct (setToken_other_fields p t1 w) as (G1 & G2 & G3 & G4).
  apply world_eq.
  - rewrite !setToken_react. by destruct p.
  - rewrite !setToken_localStorage. apply map_eq; intros k.
    destruct (truthy_token t1), (truthy_token t2);
      rewrite ?lookup_insert, ?lookup_delete;
      repeat (case_decide || rewrite ?lookup_insert, ?lookup_delete); done.
  - rewrite (setToken_bitbucket p t2 _ Hwf1), (setToken_bitbucket p t2 _ Hwf),
      (setToken_bitbucket p t1 _ Hwf).
    by destruct p.
  - rewrite E3, F3. destruct p; [done|by rewrite G3].
  - rewrite E4, F4. destruct p; [done|by rewrite G4].
  - by rewrite E1, F1, G1.
  - by rewrite E2, F2, G2.
Qed.

Lemma setToken_overrides_witness :
  setBitbucketToken None (setBitbucketToken (Some "abc123") (boot ∅ None))
  = setBitbucketToken None (boot ∅ None).
Proof.
  apply (setToken_overrides Bitbucket (Some "abc123") None (boot ∅ None)
           (reach_boot ∅ None)).
Defined.

(** [logout] forgets what came before it: in a reachable session, [logout]
    after any [setToken] or [setUserId] ends exactly where [logout] alone
    ends. *)
Theorem logout_absorbs p t view u w :
  reachable w →
  logout (setToken p t w) = logout w ∧
  logout (setUserId view u w) = logout w.
Proof.
  intros Hw. pose proof (reachable_header_wf w Hw) as Hwf.
  assert (Hwf1 : header_wf (bitbucket (setToken p t w))).
  { apply reachable_header_wf. destruct p; by constructor. }
  destruct (setToken_other_fields p t w) as (G1 & G2 & G3 & G4).
  split; apply world_eq; try reflexivity.
  - rewrite !logout_localStorage, setToken_localStorage. apply map_eq; intros k.
    destruct p, (truthy_token t); simpl;
      rewrite ?lookup_insert, ?lookup_delete;
      repeat (case_decide || rewrite ?lookup_insert, ?lookup_delete); done.
  - rewrite !logout_bitbucket, (removeAuthTokenHeader_wf_None _ Hwf1),
      (removeAuthTokenHeader_wf_None _ Hwf), (setToken_bitbucket p t w Hwf).
    by destruct p.
  - change (api_calls (logout (setToken p t w))) with (api_calls (setToken p t w)).
    by rewrite G2.
  - rewrite !logout_localStorage.
    change (localStorage (setUserId view u w))
      with (<["userId" := u]> (localStorage w)).
    apply map_eq; intros k.
    rewrite ?lookup_insert, ?lookup_delete;
      repeat (case_decide || rewrite ?lookup_insert, ?lookup_delete); done.
Qed.

Lemma logout_absorbs_witness :
  logout (setToken GitHub (Some "ghp_1") (boot ∅ None)) = logout (boot ∅ None).
Proof.
  exact (proj1 (logout_absorbs GitHub (Some "ghp_1") (first_render ∅) "u1"
                  (boot ∅ None) (reach_boot ∅ None))).
Defined.

(** [setUserId] persists its argument but sets the state cell to the value
    its closure already sees, and touches no token: called with an id other
    than the one in view, it leaves the in-memory user id different from the
    stored one. *)
Theorem setUserId_state_keeps_view view u w :
  u ≠ userIdState view →
  let w' := setUserId view u w in
  userIdState (react w') = userIdState view ∧
  Storage.getItem "userId" (localStorage w') = Some u ∧
  Storage.getItem "userId" (localStorage w') ≠ Some (userIdState (react w')) ∧
  (∀ p, tokenState p w' = tokenState p w ∧ storedToken p w' = storedToken p w ∧
        authHeader p w' = authHeader p w).
Proof.
  intros Hu. cbv zeta.
  assert (Hs : Storage.getItem "userId" (localStorage (setUserId view u w)) = Some u).
  { unfold Storage.getItem.
    change (localStorage (setUserId view u w)) with (<["userId" := u]> (localStorage w)).
    apply lookup_insert_eq. }
  split; [reflexivity|]. split; [exact Hs|]. split.
  - rewrite Hs. intros [= ->]. by apply Hu.
  - intros p. apply setUserId_tokens.
Qed.

Lemma setUserId_state_keeps_view_witness :
  let w' := setUserId (first_render ∅) "u1" (boot ∅ None) in
  userIdState (react w') = "" ∧
  Storage.getItem "userId" (localStorage w') = Some "u1".
Proof.
  cbv zeta.
  assert (Hne : "u1" ≠ userIdState (first_render ∅)) by (vm_compute; discriminate).
  destruct (setUserId_state_keeps_view (first_render ∅) "u1" (boot ∅ None) Hne)
    as (H1 & H2 & _).
  exact (conj H1 H2).
Defined.

Lemma cold_start_localStorage ls a :
  localStorage (cold_start ls a) =
  <["userId" := default "" (ls !! "userId")]>
    (if truthy_token (ls !! "ghToken")
     then <["ghToken" := default "" (ls !! "ghToken")]> ls
     else delete "ghToken" ls).
Proof.
  unfold cold_start, mount.
  change (localStorage (boot ls a)) with ls. unfold Storage.getItem.
  change (localStorage (setUserId ?v ?u ?w)) with (<["userId" := u]> (localStorage w)).
  change (setGitHubToken ?t ?w) with (setToken GitHub t w).
  by rewrite setToken_localStorage.
Qed.

(** Cold start. The mount effect re-installs the GitHub token only: whatever
    is persisted, the Bitbucket client comes up without an [Authorization]
    header, while the Bitbucket state cell and storage hold the persisted
    token; so with a non-empty persisted Bitbucket token, header and
    credential disagree until the token is set again. *)
Theorem cold_start_leaves_bitbucket_header_out ls analytics t :
  ls !! "bitbucketToken" = Some t → t ≠ "" →
  let w := cold_start ls analytics in
  tokenState Bitbucket w = Some t ∧ storedToken Bitbucket w = Some t ∧
  authHeader Bitbucket w = None ∧ ¬ mirrors Bitbucket w.
Proof.
  intros Hls Ht. cbv zeta.
  assert (H1 : tokenState Bitbucket (cold_start ls analytics) = Some t).
  { unfold cold_start, mount.
    destruct (setUserId_tokens (first_render ls)
                (default "" (Storage.getItem "userId" (localStorage (boot ls analytics))))
                (setGitHubToken (Storage.getItem "ghToken" (localStorage (boot ls analytics)))
                   (boot ls analytics)) Bitbucket) as (-> & _ & _).
    change (setGitHubToken ?x ?w) with (setToken GitHub x w).
    rewrite setToken_tokenState. rewrite decide_False by done. exact Hls. }
  assert (H3 : authHeader Bitbucket (cold_start ls analytics) = None).
  { unfold cold_start, mount.
    destruct (setUserId_tokens (first_render ls)
                (default "" (Storage.getItem "userId" (localStorage (boot ls analytics))))
                (setGitHubToken (Storage.getItem "ghToken" (localStorage (boot ls analytics)))
                   (boot ls analytics)) Bitbucket) as (_ & _ & ->).
    change (setGitHubToken ?x ?w) with (setToken GitHub x w).
    by rewrite setToken_bitbucket_header. }
  split; [exact H1|]. split.
  - unfold storedToken, Storage.getItem. rewrite cold_start_localStorage.
    rewrite lookup_insert_ne by done.
    destruct (truthy_token _); [by rewrite lookup_insert_ne|by rewrite lookup_delete_ne].
  - split; [exact H3|]. intros [_ Hm]. by rewrite H1, H3 in Hm.
Qed.

Lemma cold_start_leaves_bitbucket_header_out_witness :
  let w := cold_start {["bitbucketToken" := "abc123"]} None in
  tokenState Bitbucket w = Some "abc123" ∧ authHeader Bitbucket w = None.
Proof.
  cbv zeta.
  destruct (cold_start_leaves_bitbucket_header_out {["bitbucketToken" := "abc123"]}
              None "abc123" (lookup_singleton_eq _ _) ltac:(discriminate))
    as (H1 & _ & H3 & _).
  exact (conj H1 H3).
Defined.

(** Cold start also normalises what is persisted: the GitHub state cell and
    the stored GitHub token agree afterwards (an empty persisted token is
    removed), and a ["userId"] entry always exists, empty if none was
    persisted. *)
Theorem cold_start_normalises_storage ls analytics :
  let w := cold_start ls analytics in
  let stored := ls !! "ghToken" in
  tokenState GitHub w = (if truthy_token stored then stored else None) ∧
  storedToken GitHub w = tokenState GitHub w ∧
  Storage.getItem "userId" (localStorage w) = Some (default "" (ls !! "userId")) ∧
  userIdState (react w) = default "" (ls !! "userId").
Proof.
  cbv zeta.
  assert (H1 : tokenState GitHub (cold_start ls analytics)
               = if truthy_token (ls !! "ghToken") then ls !! "ghToken" else None).
  { unfold cold_start, mount.
    change (setGitHubToken ?x ?w) with (setToken GitHub x w).
    change (tokenState GitHub (setUserId ?v ?u ?w)) with (tokenState GitHub w).
    rewrite setToken_tokenState. by rewrite decide_True by done. }
  split; [exact H1|]. split; [|split; [|reflexivity]].
  - rewrite H1. unfold storedToken, Storage.getItem. rewrite cold_start_localStorage.
    rewrite lookup_insert_ne by done.
    destruct (ls !! "ghToken") as [t|] eqn:E; simpl.
    + destruct (truthy_string t); [apply lookup_insert_eq|apply lookup_delete_eq].
    + apply lookup_delete_eq.
  - unfold Storage.getItem. rewrite cold_start_localStorage. apply lookup_insert_eq.
Qed.

(** [refreshToken] is confined to the GitHub credential and the log of
    backend calls: however the backend calls settle, the Bitbucket client,
    state cell and stored token, the user id (cell and storage) and the
    analytics identity are what they were; and when fetching the config
    fails, nothing but the log has changed and the failure is the result. *)
Theorem refreshToken_confined view getConfig exchange w :
  let w' := (refreshToken view getConfig exchange w).2 in
  bitbucket w' = bitbucket w ∧
  tokenState Bitbucket w' = tokenState Bitbucket w ∧
  storedToken Bitbucket w' = storedToken Bitbucket w ∧
  userIdState (react w') = userIdState (react w) ∧
  Storage.getItem "userId" (localStorage w') = Storage.getItem "userId" (localStorage w) ∧
  posthog_identity w' = posthog_identity w ∧
  (∀ e, getConfig = Rejected e →
     refreshToken view getConfig exchange w = (Rejected e, record_call GetConfig w)).
Proof.
  cbv zeta.
  assert (Hlast : ∀ e, getConfig = Rejected e →
     refreshToken view getConfig exchange w = (Rejected e, record_call GetConfig w))
    by (by intros e ->).
  destruct (refreshToken_cases view getConfig exchange w)
    as (w1 & (Hr & Hl & Hb & Hg & Ho & Hp) & [->|[t ->]]).
  - unfold storedToken, tokenState. rewrite Hr, Hl, Hb, Hp. done.
  - destruct (setToken_userId GitHub t w1) as [-> ->].
    destruct (setToken_other_fields GitHub t w1) as (-> & _).
    rewrite setToken_tokenState, setToken_storedToken, !decide_False by done.
    change (bitbucket (setToken GitHub t w1)) with (bitbucket (setGitHubToken t w1)).
    rewrite setGitHubToken_bitbucket.
    unfold storedToken, tokenState. rewrite Hr, Hl, Hb, Hp. done.
Qed.

End ControllerFacts.

(** ** More on the client: what passes through, what a retry yields *)

Module PipelineFacts.
Import Interceptor Startup Examples InterceptorFacts.

Section Facts.

Context {W : Type}.
Variable defaults_Authorization : W → option string.
Variable appMode : string.
Variable refreshToken : W → Settled bool * W.
Variable logout : W → W.
Variable server : list Event → Request → Reply.

Local Abbreviation stage := (failureStage appMode refreshToken logout).
Local Abbreviation client :=
  (bitbucket defaults_Authorization appMode refreshToken logout server).
Local Abbreviation merged config s :=
  (mergeConfig defaults_Authorization config s).1.

Lemma client_invalid_status fuel config status data (s : State (W:=W)) :
  server (events s) (merged config s) = HttpReply status data →
  validateStatus status = false →
  client (S fuel) config s =
  stage (client fuel)
    (AxiosErr (mkAxiosError "Request failed" "ERR_BAD_RESPONSE"
                 (Some (merged config s))
                 (Some (mkResponse status data (merged config s)))))
    (mkState (world s) (events s ++ [Sent (merged config s)])).
Proof.
  intros Hreply Hv. cbn [bitbucket]. unfold_M. cbn [fst] in *.
  by rewrite Hreply, Hv.
Qed.

Lemma client_no_reply fuel config (s : State (W:=W)) :
  server (events s) (merged config s) = NoReply →
  client (S fuel) config s =
  (Some (Rejected generic_failure),
   mkState (world s) (events s ++ [Sent (merged config s)])).
Proof.
  intros Hreply. cbn [bitbucket]. unfold_M. cbn [fst] in *. by rewrite Hreply.
Qed.

(** An HTTP error other than 401 reaches the caller as it is, in every mode
    and whether or not the request is marked: one send, no refresh, no
    logout, session untouched. The exception is a reply whose status is [0]:
    the guard takes it for a failure without status and the caller gets the
    generic error instead. *)
Theorem other_status_passes_through fuel config status data (s : State (W:=W)) :
  server (events s) (merged config s) = HttpReply status data →
  validateStatus status = false → status ≠ 401%Z →
  let request := merged config s in
  let e := mkAxiosError "Request failed" "ERR_BAD_RESPONSE" (Some request)
             (Some (mkResponse status data request)) in
  client (S fuel) config s =
  (Some (Rejected (if (status =? 0)%Z then generic_failure else AxiosErr e)),
   mkState (world s) (events s ++ [Sent request])).
Proof.
  intros Hreply Hv Hs. cbv zeta.
  rewrite (client_invalid_status _ _ _ _ _ Hreply Hv).
  destruct (Z.eqb_spec status 0) as [->|H0].
  - by apply stage_cannot_refresh.
  - apply (stage_not_first_401 appMode refreshToken logout _ _
             (merged config s) (mkResponse status data (merged config s)));
      [done|done|done|].
    cbn [response_status]. by destruct (Z.eqb_spec status 401).
Qed.

(** The failure stage leaves the state alone or starts with a refresh. *)
Lemma stage_untouched_or_refresh resubmit error (s : State (W:=W)) :
  sends_once resubmit →
  ∃ r s', stage resubmit error s = (Some r, s') ∧
    (s' = s ∨ ∃ rest, events s' = events s ++ RefreshCalled :: rest).
Proof.
  intros Hre. unfold failureStage.
  destruct (canRefresh error) eqn:Hcan; simpl; [|by eexists _, _; split; [|left]].
  destruct error as [e| |]; try done. simpl in Hcan.
  destruct (error_config e) as [originalRequest|] eqn:Hc; [|done].
  destruct (error_response e) as [response|] eqn:Hr; [|done].
  destruct (_ && _) eqn:Hfirst; [|by eexists _, _; split; [|left]].
  destruct (String.eqb appMode "saas"); [|by eexists _, _; split; [|left]].
  unfold_M. simpl.
  destruct (refreshToken (world s)) as [[[|]|refreshError] w']; simpl.
  - destruct (Hre (set_retry originalRequest)
                (mkState w' (events s ++ [RefreshCalled])) eq_refl)
      as (r & request & _ & _ & _ & ->).
    destruct r as [a|err]; simpl; eexists _, _; (split; [done|right]);
      eexists; by rewrite <- !app_assoc.
  - eexists _, _; split; [done|right]. eexists. by rewrite <- !app_assoc.
  - eexists _, _; split; [done|right]. eexists. by rewrite <- !app_assoc.
Qed.

(** Whatever the server answers, the client touches the session and calls
    [logout] only after calling [refreshToken]: either the run is the single
    send and the session is as before, or the first thing after the send is
    the refresh; and outside saas mode it is always the former. *)
Theorem no_logout_without_refresh fuel config (s : State (W:=W)) :
  ∃ r s' new,
    client (S (S fuel)) config s = (Some r, s') ∧
    events s' = events s ++ Sent (merged config s) :: new ∧
    ((new = [] ∧ world s' = world s) ∨ ∃ rest, new = RefreshCalled :: rest) ∧
    (appMode ≠ "saas" → new = []).
Proof.
  set (s1 := mkState (world s) (events s ++ [Sent (merged config s)])).
  assert (Hstage : ∀ error, ∃ r s' new,
            stage (client (S fuel)) error s1 = (Some r, s') ∧
            events s' = events s ++ Sent (merged config s) :: new ∧
            ((new = [] ∧ world s' = world s) ∨ ∃ rest, new = RefreshCalled :: rest) ∧
            (appMode ≠ "saas" → new = [])).
  { intros error.
    destruct (stage_untouched_or_refresh (client (S fuel)) error s1
                (client_sends_once _ _ _ _ _ fuel))
      as (r & s' & Hrun & Hcase).
    assert (Hmode : appMode ≠ "saas" → s' = s1).
    { intros Hm. revert Hrun. unfold failureStage. unfold_M.
      destruct (canRefresh error); simpl; [|congruence].
      destruct error as [e| |]; try congruence.
      destruct (error_config e); [|congruence].
      destruct (error_response e); [|congruence].
      destruct (_ && _); [|congruence].
      destruct (String.eqb_spec appMode "saas"); [done|congruence]. }
    destruct Hcase as [->|[rest Hev]].
    - exists r, s1, []. split; [done|]. split; [done|]. split; [by left|done].
    - exists r, s', (RefreshCalled :: rest). split; [done|]. split.
      { rewrite Hev. cbn [events s1]. by rewrite <- app_assoc. }
      split; [right; by eexists|].
      intros Hm. rewrite (Hmode Hm) in Hev. cbn [events s1] in Hev.
      rewrite <- (app_nil_r (events s ++ [Sent (merged config s)])) in Hev at 1.
      by apply app_inv_head in Hev. }
  cbn [bitbucket]. unfold_M. cbn [fst].
  destruct (server _ _) as [status data|]; [|apply Hstage].
  destruct (validateStatus status); [|apply Hstage].
  exists (successStage (mkResponse status data (merged config s))), s1, [].
  split; [done|]. split; [done|]. split; [by left|done].
Qed.

(** After a refresh that returned [true], the caller gets exactly what the
    resubmitted request yields, and [logout] is called precisely when that is
    a rejection: a reply with an invalid status, a soft error in a valid
    reply, or no reply at all signs the user out even though the refresh
    itself succeeded. *)
Theorem retry_outcome_decides fuel config data w' (s : State (W:=W)) :
  appMode = "saas" → _retry config = false →
  server (events s) (merged config s) = HttpReply 401 data →
  refreshToken (world s) = (Fulfilled true, w') →
  let request := merged config s in
  let s2 := mkState w' (events s ++ [Sent request; RefreshCalled]) in
  let resent := merged (set_retry request) s2 in
  let sent := mkState w' (events s2 ++ [Sent resent]) in
  ∃ outcome,
    client (S fuel) (set_retry request) s2 = (Some outcome, sent) ∧
    client (S (S fuel)) config s =
      match outcome with
      | Fulfilled response => (Some (Fulfilled response), sent)
      | Rejected e =>
          (Some (Rejected e), mkState (logout w') (events sent ++ [LogoutCalled]))
      end ∧
    (∀ status body, server (events s2) resent = HttpReply status body →
       validateStatus status = true →
       outcome = successStage (mkResponse status body resent)) ∧
    (∀ status body, server (events s2) resent = HttpReply status body →
       validateStatus status = false → ∃ e, outcome = Rejected e) ∧
    (server (events s2) resent = NoReply → outcome = Rejected generic_failure).
Proof.
  intros Hmode Hfresh Hreply Hrefresh. cbv zeta.
  set (request := merged config s).
  set (s2 := mkState w' (events s ++ [Sent request; RefreshCalled])).
  destruct (client_marked defaults_Authorization appMode refreshToken logout server
              fuel (set_retry request) s2 eq_refl) as [outcome Hout].
  exists outcome. split; [exact Hout|]. split.
  - rewrite (client_invalid_status _ _ _ _ _ Hreply eq_refl).
    erewrite stage_refresh_true;
      [|exact Hmode|reflexivity|reflexivity|reflexivity|exact Hfresh|exact Hrefresh].
    cbn [events world]. rewrite <- app_assoc. cbn [app]. fold request. fold s2.
    rewrite Hout. by destruct outcome.
  - split; [|split].
    + intros status body Hr Hv.
      rewrite (SuccessStageFacts.client_valid_status _ _ _ _ _ _ _ _ _ _ Hr Hv) in Hout.
      congruence.
    + intros status body Hr Hv.
      rewrite (client_invalid_status _ _ _ _ _ Hr Hv) in Hout.
      destruct (Z.eqb_spec status 0) as [->|H0].
      * rewrite stage_cannot_refresh in Hout by done.
        exists generic_failure. congruence.
      * erewrite stage_not_first_401 in Hout;
          [|reflexivity|reflexivity|done|].
        -- injection Hout as <-. by eexists.
        -- cbn [_retry set_retry mergeConfig fst]. apply andb_false_r.
    + intros Hr. rewrite (client_no_reply _ _ _ Hr) in Hout. congruence.
Qed.

End Facts.

Lemma other_status_passes_through_witness :
  bitbucket (λ _, None) "saas" (λ w, (Fulfilled true, w)) (λ w, w)
            (λ _ _, HttpReply 500 JNull) 1 plain_request unit_state =
  (Some (Rejected (AxiosErr
     (mkAxiosError "Request failed" "ERR_BAD_RESPONSE" (Some plain_request)
        (Some (mkResponse 500 JNull plain_request))))),
   mkState tt [Sent plain_request]).
Proof.
  apply (other_status_passes_through (λ _, None) "saas" (λ w, (Fulfilled true, w))
           (λ w, w) (λ _ _, HttpReply 500 JNull) 0 plain_request 500 JNull unit_state
           eq_refl eq_refl).
  discriminate.
Defined.

Lemma retry_outcome_decides_witness :
  bitbucket (λ _, None) "saas" (λ w, (Fulfilled true, w)) (λ w, w)
            unauthorized_once 2 plain_request unit_state =
  (Some (Fulfilled (mkResponse 200 (JArr []) (set_retry plain_request))),
   mkState tt [Sent plain_request; RefreshCalled; Sent (set_retry plain_request)]).
Proof.
  destruct (retry_outcome_decides (λ _, None) "saas" (λ w, (Fulfilled true, w))
              (λ w, w) unauthorized_once 0 plain_request JNull tt unit_state
              eq_refl eq_refl eq_refl eq_refl) as (outcome & _ & Hrun & Hok & _).
  cbv zeta in *. rewrite Hrun.
  rewrite (Hok 200%Z (JArr []) eq_refl eq_refl). reflexivity.
Defined.

End PipelineFacts.

(** ** Interceptors installed at cold start *)

Module StartupFacts.
Import HeaderManager Auth Interceptor Session Startup Examples HeaderFacts AuthFacts.

Local Abbreviation merged config s :=
  (mergeConfig defaults_Authorization config s).1.

Lemma first_render_boot ls analytics : react (boot ls analytics) = first_render ls.
Proof. reflexivity. Qed.

(** The interceptors keep the [refreshToken] of the first render for good.
    If no non-empty GitHub token was persisted at cold start, then in saas
    mode every first 401 of the Bitbucket client ends in [logout] and a
    rejection, without any refresh exchange being issued, whatever token the
    session holds by then and however the config fetch settles: when the
    config is fetched the caller gets the generic error (and [logout] runs
    twice), when the fetch rejects the caller gets that error. *)
Theorem installed_refresh_sees_cold_start_token ls getConfig exchange server fuel
    request data (s : State) :
  truthy_token (ls !! "ghToken") = false →
  _retry request = false →
  server (events s) (merged request s) = HttpReply 401 data →
  installed_client "saas" ls getConfig exchange server (S fuel) request s =
  (Some (Rejected match getConfig with
                  | Fulfilled _ => generic_failure
                  | Rejected e => e
                  end),
   mkState (logout (record_call GetConfig (world s)))
           (events s ++ Sent (merged request s) :: RefreshCalled :: LogoutCalled ::
              match getConfig with
              | Fulfilled _ => [LogoutCalled]
              | Rejected _ => []
              end)).
Proof.
  intros Hstart Hfresh Hreply. unfold installed_client.
  rewrite (SessionFacts.client_first_401 _ _ _ _ _ _ _ _ _ Hreply).
  destruct getConfig as [config|e].
  - erewrite InterceptorFacts.stage_refresh_false;
      [|reflexivity|reflexivity|reflexivity|reflexivity|exact Hfresh|].
    + rewrite logout_idemp. cbn [events world]. by rewrite <- app_assoc.
    + cbn [world]. unfold refreshToken.
      change (gitHubTokenState (first_render ls)) with (ls !! "ghToken").
      by rewrite Hstart, orb_true_r.
  - erewrite InterceptorFacts.stage_refresh_rejects;
      [|reflexivity|reflexivity|reflexivity|reflexivity|exact Hfresh|reflexivity].
    cbn [events world]. by rewrite <- app_assoc.
Qed.

Lemma installed_refresh_sees_cold_start_token_witness :
  (installed_client "saas" ∅ (Fulfilled (mkConfig "saas"))
     (λ _ _, Fulfilled (Some "ghp_new")) always_401 1 plain_request
     signed_in_state).1
  = Some (Rejected generic_failure).
Proof.
  assert (Hstart : truthy_token ((∅ : gmap string string) !! "ghToken") = false)
    by (by rewrite lookup_empty).
  by rewrite (installed_refresh_sees_cold_start_token ∅ (Fulfilled (mkConfig "saas"))
                (λ _ _, Fulfilled (Some "ghp_new")) always_401 0 plain_request
                JNull signed_in_state Hstart eq_refl eq_refl).
Defined.

End StartupFacts.

(** ** The repository selector *)

Module SelectorFacts.
Import Selector.

Lemma filter_none {A} (f : A → bool) (l : list A) :
  (∀ x, In x l → f x = false) → List.filter f l = [].
Proof.
  induction l as [|x l IH]; intros H; [done|]. cbn.
  rewrite (H x (or_introl eq_refl)). apply IH. intros y Hy. apply H. by right.
Qed.

(** The de-duplication filter looks each public repository up in the public
    list itself, where it always is: every public repository is dropped, and
    the list the handlers search is the user's list alone. *)
Theorem allRepositories_is_userRepositories publicRepositories userRepositories :
  allRepositories publicRepositories userRepositories = userRepositories.
Proof.
  unfold allRepositories. rewrite filter_none; [done|].
  intros repo Hin.
  destruct (List.find _ publicRepositories) eqn:E; [done|].
  pose proof (List.find_none _ _ E repo Hin) as H. cbn in H.
  by rewrite String.eqb_refl in H.
Qed.

Lemma find_uuid_is_none id l :
  (∀ r, In r l → Some (uuid r) ≠ id) → List.find (uuid_is id) l = None.
Proof.
  intros H. destruct (List.find (uuid_is id) l) as [r|] eqn:E; [|done].
  apply List.find_some in E as [Hin Hr]. exfalso. apply (H r Hin).
  destruct id as [i|]; [|done]. cbn in Hr. by apply String.eqb_eq in Hr as ->.
Qed.

Lemma find_uuid_is_first id pre repo post :
  Some (uuid repo) = id →
  (∀ r, In r pre → uuid r ≠ uuid repo) →
  List.find (uuid_is id) (pre ++ repo :: post) = Some repo.
Proof.
  intros <- Hpre. induction pre as [|r pre IH]; cbn.
  - by rewrite String.eqb_refl.
  - destruct (String.eqb_spec (uuid r) (uuid repo)) as [Heq|_].
    + exfalso. by apply (Hpre r (or_introl eq_refl)).
    + apply IH. intros r' Hr'. apply Hpre. by right.
Qed.

(** Selecting changes something only for an id carried by one of the user's
    own repositories: a repository listed only under the public ones, or a
    [null] id, is ignored (nothing dispatched, nothing captured, [onSelect]
    not called, selected key unchanged); otherwise the full name dispatched,
    once, is that of the first user repository with that id, the one no
    earlier entry of the user's list shares its id with. *)
Theorem selection_needs_user_repository publicRepositories userRepositories id st :
  ((∀ r, In r userRepositories → Some (uuid r) ≠ id) →
   handleRepoSelection publicRepositories userRepositories id st = st) ∧
  (∀ pre first post,
     userRepositories = pre ++ first :: post →
     Some (uuid first) = id →
     (∀ r, In r pre → uuid r ≠ uuid first) →
     handleRepoSelection publicRepositories userRepositories id st =
     mkSelection (dispatched st ++ [Some (full_name first)])
                 (captured st ++ ["repository_selected"])
                 (S (onSelect_calls st)) id) ∧
  (∀ repo, In repo userRepositories → Some (uuid repo) = id →
     ∃ pre first post,
       userRepositories = pre ++ first :: post ∧ uuid first = uuid repo ∧
       (∀ r, In r pre → uuid r ≠ uuid first)).
Proof.
  unfold handleRepoSelection. rewrite allRepositories_is_userRepositories.
  split; [|split].
  - intros H. by rewrite find_uuid_is_none.
  - intros pre first post -> Hid Hpre.
    by rewrite (find_uuid_is_first id pre first post Hid Hpre).
  - intros repo Hin _. clear id. induction userRepositories as [|r l IH]; [done|].
    destruct (String.eqb_spec (uuid r) (uuid repo)) as [Heq|Hne].
    + exists [], r, l. done.
    + destruct Hin as [->|Hin]; [done|].
      destruct (IH Hin) as (pre & first & post & -> & Hu & Hpre).
      exists (r :: pre), first, post. split; [done|]. split; [done|].
      intros r' [<-|Hr']; [congruence|by apply Hpre].
Qed.

Lemma selection_needs_user_repository_witness :
  let public_only := mkRepository "{p1}" "acme/public" in
  let st := mkSelection [] [] 0 None in
  handleRepoSelection [public_only] [mkRepository "{u1}" "me/mine"] (Some "{p1}") st = st.
Proof.
  cbv zeta.
  apply (proj1 (selection_needs_user_repository
                  [mkRepository "{p1}" "acme/public"] [mkRepository "{u1}" "me/mine"]
                  (Some "{p1}") (mkSelection [] [] 0 None))).
  intros r [<-|[]]. discriminate.
Defined.

End SelectorFacts.

(** ** The token dialog *)

Module ConnectFacts.
Import HeaderManager Auth Connect Examples HeaderFacts AuthFacts.

(** Submitting the dialog always closes it and never signs out: an empty or
    missing field leaves the session exactly as it was, a non-empty one
    becomes the Bitbucket token (state cell, storage, bearer header); a
    session with a Bitbucket token has one afterwards. *)
Theorem handleSubmit_never_clears field w closes :
  let out := handleSubmit field (w, closes) in
  out.2 = S closes ∧
  (truthy_token field = false → out.1 = w) ∧
  (∀ t, field = Some t → t ≠ "" →
     tokenState Bitbucket out.1 = Some t ∧ storedToken Bitbucket out.1 = Some t ∧
     authHeader Bitbucket out.1 = Some ("Bearer " +:+ t)) ∧
  (truthy_token (tokenState Bitbucket w) = true →
   truthy_token (tokenState Bitbucket out.1) = true).
Proof.
  cbv zeta. unfold handleSubmit.
  destruct (truthy_token field) eqn:E; cbn [fst snd].
  - apply truthy_token_true in E as (s & -> & Hs).
    destruct (setToken_present Bitbucket s w Hs) as (H1 & H2 & H3).
    split; [done|]. split; [done|]. split.
    + by intros t [= <-] _.
    + intros _. change (setBitbucketToken (Some s) w) with (setToken Bitbucket (Some s) w).
      rewrite H1. by apply truthy_token_true; exists s.
  - split; [done|]. split; [done|]. split; [|done].
    intros t -> Ht. apply truthy_string_true in Ht. cbn in E. congruence.
Qed.

End ConnectFacts.

(** ** The authorization URL *)

Module AuthUrlFacts.
Import Stdlib.Strings.Ascii.
Import Auth AuthUrl HeaderFacts AuthFacts.

Lemma all_chars_app p a b :
  all_chars p (a +:+ b) = all_chars p a && all_chars p b.
Proof.
  induction a as [|c a IH]; [done|].
  change (String c a +:+ b) with (String c (a +:+ b)).
  cbn [all_chars]. by rewrite IH, andb_assoc.
Qed.

Lemma all_chars_impl (p q : ascii → bool) s :
  (∀ c, p c = true → q c = true) → all_chars p s = true → all_chars q s = true.
Proof.
  intros H. induction s as [|c s IH]; [done|]. cbn.
  intros [Hc Hs]%andb_true_iff. by rewrite (H c Hc), IH.
Qed.

Lemma encodeURIComponent_app a b :
  encodeURIComponent (a +:+ b) = encodeURIComponent a +:+ encodeURIComponent b.
Proof.
  induction a as [|c a IH]; [done|].
  change (String c a +:+ b) with (String c (a +:+ b)).
  cbn [encodeURIComponent]. rewrite IH.
  destruct (unreserved c); reflexivity.
Qed.

Lemma percent_encode_component c : all_chars component_char (percent_encode c) = true.
Proof. destruct c as [[] [] [] [] [] [] [] []]; vm_compute; reflexivity. Qed.

Lemma component_char_not_delimiter c : component_char c = true → delimiter c = false.
Proof. destruct c as [[] [] [] [] [] [] [] []]; vm_compute; congruence. Qed.

(** [encodeURIComponent] produces only unreserved characters and percent
    escapes. *)
Lemma encodeURIComponent_component s :
  all_chars component_char (encodeURIComponent s) = true.
Proof.
  induction s as [|c s IH]; [done|]. cbn [encodeURIComponent].
  rewrite all_chars_app, IH, andb_true_r.
  destruct (unreserved c) eqn:E; [|apply percent_encode_component].
  cbn. unfold component_char. by rewrite E.
Qed.

(** The authorization URL, for every client id and origin: it is the fixed
    endpoint, the client id inserted as it is, the fixed response type, the
    redirect parameter and the scope [repository]; the redirect parameter is
    the encoded origin followed by the encoded callback path, and no
    character of it is a URL or query delimiter, so nothing in the origin can
    end the parameter or add another one. The client id gets no such
    treatment. *)
Theorem generateBitbucketAuthUrl_shape clientId requestUrl :
  ∃ redirect,
    generateBitbucketAuthUrl clientId requestUrl =
      "https://bitbucket.org/site/oauth2/authorize?client_id=" +:+ clientId
      +:+ "&response_type=code&redirect_uri=" +:+ redirect +:+ "&scope=repository" ∧
    redirect = encodeURIComponent (origin requestUrl)
               +:+ "%2Foauth%2Fbitbucket%2Fcallback" ∧
    all_chars (λ c, negb (delimiter c)) redirect = true.
Proof.
  exists (encodeURIComponent (origin requestUrl +:+ "/oauth/bitbucket/callback")).
  split; [reflexivity|]. split.
  - by rewrite encodeURIComponent_app.
  - eapply all_chars_impl; [|apply encodeURIComponent_component].
    intros c Hc. by rewrite (component_char_not_delimiter c Hc).
Qed.

(** The home page offers the authorization URL exactly when the mode is
    ["saas"] and the session holds no non-empty Bitbucket token: it is gone
    once a token is set and back after [logout]. A missing or empty client id
    gives a URL with an empty [client_id]. *)
Theorem home_bitbucketAuthUrl_offered appMode clientId w location :
  (is_Some (home_bitbucketAuthUrl appMode clientId w location) ↔
   appMode = Some "saas" ∧ truthy_token (tokenState Bitbucket w) = false) ∧
  (∀ t, t ≠ "" →
     home_bitbucketAuthUrl appMode clientId (setBitbucketToken (Some t) w) location = None) ∧
  (home_bitbucketAuthUrl (Some "saas") clientId (logout w) location =
   Some (generateBitbucketAuthUrl
           (if truthy_token clientId then default "" clientId else "") location)).
Proof.
  unfold home_bitbucketAuthUrl, useBitbucketAuthUrl. cbn [AuthUrl.appMode bitbucketToken
    bitbucketClientId].
  split; [|split].
  - destruct (bool_decide_reflect (appMode = Some "saas")) as [->|Hne];
      destruct (truthy_token (tokenState Bitbucket w)); cbn [andb negb];
      split; try done; try (intros [? ?]; done); try (intros [[? ?] ?]; done).
  - intros t Ht.
    destruct (setToken_present Bitbucket t w Ht) as (H1 & _).
    change (setBitbucketToken (Some t) w) with (setToken Bitbucket (Some t) w).
    rewrite H1. cbn [truthy_token]. apply truthy_string_true in Ht. rewrite Ht.
    by rewrite andb_false_r.
  - destruct (SessionFacts.logout_credentials w) as (H & _).
    destruct (H Bitbucket) as [-> _]. cbn [truthy_token negb].
    rewrite bool_decide_eq_true_2 by done. cbn [andb].
    destruct clientId as [c|]; [|done]. cbn. by destruct (truthy_string c).
Qed.

End AuthUrlFacts.
